(** * TaxiBoy booking backend ([server/server.js])

    A shallow embedding of the Express server that accepts ride bookings,
    keeps them in the in-memory map [activeBookings] keyed by a secret
    cancellation token, and mails confirmations and cancellations.

    The source file holds three revisions of the server.  The second one
    (English texts) and the first one (German texts, configurable base URL)
    share one control flow and are embedded once, parametrised by [variant];
    the third one (no store, no identifiers) is embedded as [Legacy].

    Layout: [Js] holds the fragments of the JavaScript runtime the handlers
    rely on, [Templates] the literal texts, [Server] the handlers, [Legacy]
    the third revision and [Sample] concrete requests.  The lemmas follow
    the definitions: [JsFacts], [ServerFacts], and in [Specification] the
    properties the specification states, C1 to C10.  [Setup] holds the
    start-up configuration, [Runs] repeated and overlapping requests and
    [Later] a second clock reading; [Coverage] proves what the handlers do
    beyond the specification's statements, X1 to X17. *)

From stdpp Require Import gmap strings list fin_maps.
From Stdlib Require Import ZArith NArith Ascii String.
From Stdlib.Strings Require Import Byte.

#[local] Set Warnings "-register-all".
#[local] Open Scope string_scope.
#[local] Open Scope list_scope.

(** ** Fragments of the JavaScript runtime *)

Module Js.

(** A JSON value as [express.json()] hands it to the handler, plus
    [undefined] for a missing property.  A number is kept by the text that
    [Number.prototype.toString] prints for it, the only thing the handlers
    ever do with one. *)
Inductive value :=
  | VUndefined
  | VNull
  | VBool (b : bool)
  | VNum (shown : string)
  | VStr (s : string)
  | VArr (xs : list value)
  | VObj (fields : gmap string value).

(** The own enumerable properties of an object. *)
Abbreviation obj := (gmap string value).

(** [o.k]: none of the keys the handlers read lives on [Object.prototype],
    so a property read is an own-property lookup. *)
Definition get (o : obj) (k : string) : value := default VUndefined (o !! k).

(** [{ k1: v1, ...o, k2: v2 }] is built left to right, later keys winning. *)
Definition spread_onto (base o : obj) : obj := o ∪ base.

(** What a [throw] carries: a [TypeError] of the runtime or the rejection
    of a [sendMail] promise. *)
Inductive error :=
  | TypeError (msg : string)
  | MailError (msg : string).

Definition message (e : error) : string :=
  match e with TypeError m | MailError m => m end.

(** Code inside [try { ... }]: a value or a thrown error. *)
Inductive result (A : Type) :=
  | Ok (a : A)
  | Throw (e : error).
Arguments Ok {A} a.
Arguments Throw {A} e.

#[global] Instance result_bind : MBind result := λ A B k r,
  match r with Ok a => k a | Throw e => Throw e end.

Definition cannot_convert : error :=
  TypeError "Cannot convert object to primitive value".

(** [ToString(v)], as a template literal applies it to [${v}].  An array
    prints through [Array.prototype.join]; an object prints as
    [[object Object]] unless it has an own [toString] property, which in a
    JSON value is never callable, so that [OrdinaryToPrimitive] finds no
    primitive and throws. *)
Fixpoint ToString (v : value) : result string :=
  match v with
  | VUndefined => Ok "undefined"
  | VNull => Ok "null"
  | VBool true => Ok "true"
  | VBool false => Ok "false"
  | VNum shown => Ok shown
  | VStr s => Ok s
  | VArr xs =>
      let element (x : value) : result string :=
        match x with
        | VUndefined | VNull => Ok EmptyString
        | _ => ToString x
        end in
      (fix join (l : list value) : result string :=
         match l with
         | [] => Ok EmptyString
         | [x] => element x
         | x :: rest => a ← element x; b ← join rest; Ok (a +:+ "," +:+ b)
         end) xs
  | VObj fields =>
      match fields !! "toString" with
      | Some _ => Throw cannot_convert
      | None => Ok "[object Object]"
      end
  end.

(** [ToPrimitive(v)] as [new Date(v)] applies it: [valueOf] of an array or
    of an object returns the object itself, so the result is that of
    [toString]. *)
Definition ToPrimitive (v : value) : result value :=
  match v with
  | VArr _ | VObj _ => s ← ToString v; Ok (VStr s)
  | _ => Ok v
  end.

(** [v === 'literal'] *)
Definition strict_equals_string (v : value) (lit : string) : bool :=
  match v with
  | VStr s => bool_decide (s = lit)
  | _ => false
  end.

(** [process.env.X] *)
Definition env_value (x : option string) : value :=
  match x with Some s => VStr s | None => VUndefined end.

(** *** Decimal printing of integers *)

Definition digit_char (d : N) : ascii := ascii_of_N (48 + d).

Fixpoint N_digits (fuel : nat) (n : N) (acc : string) : string :=
  match fuel with
  | O => acc
  | S fuel' =>
      let acc' := String (digit_char (n mod 10)) acc in
      if (n <? 10)%N then acc' else N_digits fuel' (n / 10) acc'
  end.

(** [n.toString()] for a non-negative integer [n]. *)
Definition N_toString (n : N) : string :=
  N_digits (S (N.to_nat (N.log2 n))) n EmptyString.

(** [z.toString()] for an integer [z]. *)
Definition Z_toString (z : Z) : string :=
  match z with
  | Zneg p => "-" +:+ N_toString (Npos p)
  | _ => N_toString (Z.to_N z)
  end.

(** The last [k] decimal digits of [n], with leading zeros. *)
Fixpoint last_digits (k : nat) (n : N) : string :=
  match k with
  | O => EmptyString
  | S k' => last_digits k' (n / 10) +:+ String (digit_char (n mod 10)) EmptyString
  end.

(** The number a run of decimal digits denotes. *)
Fixpoint decimal_value_from (acc : N) (s : string) : N :=
  match s with
  | EmptyString => acc
  | String c s' => decimal_value_from (10 * acc + (N_of_ascii c - 48)) s'
  end.

Definition decimal_value (s : string) : N := decimal_value_from 0 s.

(** *** String methods *)

Fixpoint skip (n : nat) (s : string) : string :=
  match n, s with
  | O, _ => s
  | S n', EmptyString => EmptyString
  | S n', String _ s' => skip n' s'
  end.

(** [s.slice(-k)]: the last [k] characters, all of [s] when it is shorter. *)
Definition slice_last (k : nat) (s : string) : string :=
  skip (String.length s - k) s.

Fixpoint repeat_char (c : ascii) (n : nat) : string :=
  match n with
  | O => EmptyString
  | S n' => String c (repeat_char c n')
  end.

(** [s.padStart(width, c)] for a one-character filler [c]. *)
Definition padStart (width : nat) (c : ascii) (s : string) : string :=
  repeat_char c (width - String.length s) +:+ s.

Fixpoint is_prefix (p s : string) : bool :=
  match p, s with
  | EmptyString, _ => true
  | String a p', String b s' => bool_decide (a = b) && is_prefix p' s'
  | String _ _, EmptyString => false
  end.

(** [s.includes(sub)] *)
Fixpoint includes (s sub : string) : bool :=
  is_prefix sub s ||
  match s with
  | EmptyString => false
  | String _ s' => includes s' sub
  end.

(** [sub] occurs in [s]. *)
Definition contains (s sub : string) : Prop :=
  ∃ before after, s = before +:+ sub +:+ after.

(** *** Buffers and hexadecimal *)

Definition hex_char (n : N) : ascii :=
  if (n <? 10)%N then ascii_of_N (48 + n) else ascii_of_N (87 + n).

(** [buf.toString('hex')]: two lower-case digits per byte. *)
Fixpoint toString_hex (buf : list byte) : string :=
  match buf with
  | [] => EmptyString
  | b :: rest =>
      let n := Byte.to_N b in
      String (hex_char (n / 16)) (String (hex_char (n mod 16)) (toString_hex rest))
  end.

Definition hex_value (c : ascii) : option N :=
  let n := N_of_ascii c in
  if ((48 <=? n) && (n <=? 57))%N then Some (n - 48)%N
  else if ((97 <=? n) && (n <=? 102))%N then Some (n - 87)%N
  else None.

(** [Buffer.from(s, 'hex')] on an even run of lower-case digits. *)
Fixpoint from_hex (s : string) : option (list byte) :=
  match s with
  | EmptyString => Some []
  | String hi (String lo rest) =>
      h ← hex_value hi; l ← hex_value lo;
      b ← Byte.of_N (16 * h + l); bs ← from_hex rest; Some (b :: bs)
  | String _ EmptyString => None
  end.

Definition is_hex_digit (c : ascii) : bool :=
  match hex_value c with Some _ => true | None => false end.

Definition is_digit (c : ascii) : bool :=
  let n := N_of_ascii c in ((48 <=? n) && (n <=? 57))%N.

Fixpoint all_chars (p : ascii -> bool) (s : string) : bool :=
  match s with
  | EmptyString => true
  | String c s' => p c && all_chars p s'
  end.

(** *** URL escaping *)

(** The characters [encodeURIComponent] leaves alone: letters, digits and
    [- _ . ! ~ * ' ( )]. *)
Definition uri_unreserved (c : ascii) : bool :=
  let n := N_of_ascii c in
  (((48 <=? n) && (n <=? 57)) || ((65 <=? n) && (n <=? 90)) ||
   ((97 <=? n) && (n <=? 122)) ||
   bool_decide (n ∈ [45; 95; 46; 33; 126; 42; 39; 40; 41]))%N.

Definition upper_hex_char (n : N) : ascii :=
  if (n <? 10)%N then ascii_of_N (48 + n) else ascii_of_N (55 + n).

(** [encodeURIComponent(s)] on the UTF-8 bytes of [s]. *)
Fixpoint encodeURIComponent (s : string) : string :=
  match s with
  | EmptyString => EmptyString
  | String c s' =>
      if uri_unreserved c then String c (encodeURIComponent s')
      else
        let n := N_of_ascii c in
        String "%" (String (upper_hex_char (n / 16))
          (String (upper_hex_char (n mod 16)) (encodeURIComponent s')))
  end.

End Js.

(** ** The literal texts of the mails and pages

    Each template literal is copied line by line; [nl] is the line break
    and [dq] the double quote of the HTML attributes.  The arguments are
    the interpolated expressions, already converted to strings. *)

Module Templates.

Definition nl : string := String (ascii_of_nat 10) EmptyString.
Definition dq : string := String (ascii_of_nat 34) EmptyString.

(** [customerMailOptions.html] of the first revision, lines 85-108. *)
Definition customerMailOptions_html_de
    (bookingNumber type pickupLocation destination formattedDateTime vehicleType name phone email cancellationUrl : string) : string :=
  nl +:+
  "        <h1>Ihre Fahrt wurde gebucht!</h1>" +:+ nl +:+
  "        <div style=" +:+ dq +:+ "background-color: #f3f4f6; padding: 15px; margin: 20px 0; border-radius: 5px;" +:+ dq +:+ ">" +:+ nl +:+
  "          <h2 style=" +:+ dq +:+ "color: #1f2937; margin: 0;" +:+ dq +:+ ">Buchungsnummer: " +:+ bookingNumber +:+ "</h2>" +:+ nl +:+
  "        </div>" +:+ nl +:+
  "        <p>Vielen Dank für Ihre Wahl von TaxiBoy. Hier sind Ihre Buchungsdetails:</p>" +:+ nl +:+
  "        <ul style=" +:+ dq +:+ "list-style: none; padding: 0;" +:+ dq +:+ ">" +:+ nl +:+
  "          <li><strong>Buchungsart:</strong> " +:+ type +:+ "</li>" +:+ nl +:+
  "          <li><strong>Abfahrtort:</strong> " +:+ pickupLocation +:+ "</li>" +:+ nl +:+
  "          <li><strong>Ziel:</strong> " +:+ destination +:+ "</li>" +:+ nl +:+
  "          <li><strong>Datum/Zeit:</strong> " +:+ formattedDateTime +:+ "</li>" +:+ nl +:+
  "          <li><strong>Fahrzeugtyp:</strong> " +:+ vehicleType +:+ "</li>" +:+ nl +:+
  "          <li><strong>Name:</strong> " +:+ name +:+ "</li>" +:+ nl +:+
  "          <li><strong>Telefon:</strong> " +:+ phone +:+ "</li>" +:+ nl +:+
  "          <li><strong>E-Mail:</strong> " +:+ email +:+ "</li>" +:+ nl +:+
  "        </ul>" +:+ nl +:+
  "        <p>Bitte bewahren Sie Ihre Buchungsnummer für zukünftige Referenzen auf.</p>" +:+ nl +:+
  "        <div style=" +:+ dq +:+ "margin: 20px 0; padding: 15px; background-color: #fee2e2; border-radius: 5px;" +:+ dq +:+ ">" +:+ nl +:+
  "          <p style=" +:+ dq +:+ "margin: 0; color: #991b1b;" +:+ dq +:+ ">Möchten Sie Ihre Fahrt stornieren?</p>" +:+ nl +:+
  "          <p style=" +:+ dq +:+ "margin: 5px 0;" +:+ dq +:+ ">Klicken Sie auf den untenstehenden Link, um Ihre Buchung zu stornieren:</p>" +:+ nl +:+
  "          <a href=" +:+ dq +:+ cancellationUrl +:+ dq +:+ " style=" +:+ dq +:+ "display: inline-block; padding: 10px 20px; background-color: #dc2626; color: white; text-decoration: none; border-radius: 5px;" +:+ dq +:+ ">Buchung Stornieren</a>" +:+ nl +:+
  "        </div>" +:+ nl +:+
  "        <p style=" +:+ dq +:+ "color: #6b7280; font-size: 0.875rem;" +:+ dq +:+ ">Wenn Sie weitere Änderungen an Ihrer Buchung benötigen, kontaktieren Sie bitte unser Support-Team.</p>" +:+ nl +:+
  "      ".

(** [adminMailOptions.html] of the first revision, lines 116-134. *)
Definition adminMailOptions_html_de
    (bookingNumber type pickupLocation destination formattedDateTime vehicleType name phone email : string) : string :=
  nl +:+
  "        <h1>Neue Buchung erhalten</h1>" +:+ nl +:+
  "        <div style=" +:+ dq +:+ "background-color: #f3f4f6; padding: 15px; margin: 20px 0; border-radius: 5px;" +:+ dq +:+ ">" +:+ nl +:+
  "          <h2 style=" +:+ dq +:+ "color: #1f2937; margin: 0;" +:+ dq +:+ ">Buchungsnummer: " +:+ bookingNumber +:+ "</h2>" +:+ nl +:+
  "        </div>" +:+ nl +:+
  "        <p>Eine neuer Buchung wurde erhalten. Hier sind die Details der Buchung:</p>" +:+ nl +:+
  "        <ul style=" +:+ dq +:+ "list-style: none; padding: 0;" +:+ dq +:+ ">" +:+ nl +:+
  "          <li><strong>Buchungstyp:</strong> " +:+ type +:+ "</li>" +:+ nl +:+
  "          <li><strong>Abfahrtort:</strong> " +:+ pickupLocation +:+ "</li>" +:+ nl +:+
  "          <li><strong>Zielort:</strong> " +:+ destination +:+ "</li>" +:+ nl +:+
  "          <li><strong>Datum/Uhrzeit:</strong> " +:+ formattedDateTime +:+ "</li>" +:+ nl +:+
  "          <li><strong>Fahrzeug Type:</strong> " +:+ vehicleType +:+ "</li>" +:+ nl +:+
  "          <hr>" +:+ nl +:+
  "          <li><strong>Kunden Name:</strong> " +:+ name +:+ "</li>" +:+ nl +:+
  "          <li><strong>Kunden Phone:</strong> " +:+ phone +:+ "</li>" +:+ nl +:+
  "          <li><strong>Kunden Email:</strong> " +:+ email +:+ "</li>" +:+ nl +:+
  "        </ul>" +:+ nl +:+
  "        <p>Bitte aktualisieren Sie das Planungssystem entsprechend.</p>" +:+ nl +:+
  "      ".

(** [customerCancelMailOptions.html] of the first revision, lines 174-188. *)
Definition customerCancelMailOptions_html_de
    (bookingNumber name pickupLocation destination : string) : string :=
  nl +:+
  "        <h1>Ihre Fahrt wurde storniert</h1>" +:+ nl +:+
  "        <div style=" +:+ dq +:+ "background-color: #fee2e2; padding: 15px; margin: 20px 0; border-radius: 5px;" +:+ dq +:+ ">" +:+ nl +:+
  "          <h2 style=" +:+ dq +:+ "color: #991b1b; margin: 0;" +:+ dq +:+ ">Buchung #" +:+ bookingNumber +:+ " wurde storniert</h2>" +:+ nl +:+
  "        </div>" +:+ nl +:+
  "        <p>Ihre Buchung wurde erfolgreich storniert. Hier sind die Details der stornierten Buchung:</p>" +:+ nl +:+
  "        <ul style=" +:+ dq +:+ "list-style: none; padding: 0;" +:+ dq +:+ ">" +:+ nl +:+
  "          <li><strong>Buchungsnummer:</strong> " +:+ bookingNumber +:+ "</li>" +:+ nl +:+
  "          <li><strong>Name:</strong> " +:+ name +:+ "</li>" +:+ nl +:+
  "          <li><strong>Abfahrtort:</strong> " +:+ pickupLocation +:+ "</li>" +:+ nl +:+
  "          <li><strong>Zielort:</strong> " +:+ destination +:+ "</li>" +:+ nl +:+
  "        </ul>" +:+ nl +:+
  "        <p>Wenn Sie eine neue Fahrt buchen möchten, besuchen Sie bitte unsere Website.</p>" +:+ nl +:+
  "        <p>Vielen Dank, dass Sie sich für TaxiBoy entschieden haben!</p>" +:+ nl +:+
  "      ".

(** [adminCancelMailOptions.html] of the first revision, lines 196-212. *)
Definition adminCancelMailOptions_html_de
    (bookingNumber name email phone pickupLocation destination vehicleType : string) : string :=
  nl +:+
  "        <h1>Buchung storniert</h1>" +:+ nl +:+
  "        <div style=" +:+ dq +:+ "background-color: #fee2e2; padding: 15px; margin: 20px 0; border-radius: 5px;" +:+ dq +:+ ">" +:+ nl +:+
  "          <h2 style=" +:+ dq +:+ "color: #991b1b; margin: 0;" +:+ dq +:+ ">Buchung #" +:+ bookingNumber +:+ " wurde storniert</h2>" +:+ nl +:+
  "        </div>" +:+ nl +:+
  "        <p>Eine Kunde hat seine Buchung storniert. Details unten:</p>" +:+ nl +:+
  "        <ul style=" +:+ dq +:+ "list-style: none; padding: 0;" +:+ dq +:+ ">" +:+ nl +:+
  "          <li><strong>Buchungsnummer:</strong> " +:+ bookingNumber +:+ "</li>" +:+ nl +:+
  "          <li><strong>Kundenname:</strong> " +:+ name +:+ "</li>" +:+ nl +:+
  "          <li><strong>Kunden-E-Mail:</strong> " +:+ email +:+ "</li>" +:+ nl +:+
  "          <li><strong>Kunden-Telefon:</strong> " +:+ phone +:+ "</li>" +:+ nl +:+
  "          <li><strong>Abfahrtort:</strong> " +:+ pickupLocation +:+ "</li>" +:+ nl +:+
  "          <li><strong>Zielort:</strong> " +:+ destination +:+ "</li>" +:+ nl +:+
  "          <li><strong>Fahrzeugtyp:</strong> " +:+ vehicleType +:+ "</li>" +:+ nl +:+
  "        </ul>" +:+ nl +:+
  "        <p>Bitte aktualisieren Sie das Planungssystem entsprechend.</p>" +:+ nl +:+
  "      ".

(** The success page of the first revision, lines 225-259. *)
Definition success_page_de
    (bookingNumber : string) : string :=
  nl +:+
  "      <html>" +:+ nl +:+
  "        <head>" +:+ nl +:+
  "          <title>Buchung storniert</title>" +:+ nl +:+
  "          <style>" +:+ nl +:+
  "            body {" +:+ nl +:+
  "              font-family: Arial, sans-serif;" +:+ nl +:+
  "              max-width: 600px;" +:+ nl +:+
  "              margin: 40px auto;" +:+ nl +:+
  "              padding: 20px;" +:+ nl +:+
  "              text-align: center;" +:+ nl +:+
  "            }" +:+ nl +:+
  "            .success-box {" +:+ nl +:+
  "              background-color: #fee2e2;" +:+ nl +:+
  "              border-radius: 8px;" +:+ nl +:+
  "              padding: 20px;" +:+ nl +:+
  "              margin: 20px 0;" +:+ nl +:+
  "            }" +:+ nl +:+
  "            .booking-number {" +:+ nl +:+
  "              font-size: 1.2em;" +:+ nl +:+
  "              font-weight: bold;" +:+ nl +:+
  "              color: #991b1b;" +:+ nl +:+
  "            }" +:+ nl +:+
  "          </style>" +:+ nl +:+
  "        </head>" +:+ nl +:+
  "        <body>" +:+ nl +:+
  "          <div class=" +:+ dq +:+ "success-box" +:+ dq +:+ ">" +:+ nl +:+
  "            <h1>Buchung erfolgreich storniert</h1>" +:+ nl +:+
  "            <p class=" +:+ dq +:+ "booking-number" +:+ dq +:+ ">Buchungsnummer #" +:+ bookingNumber +:+ "</p>" +:+ nl +:+
  "          </div>" +:+ nl +:+
  "          <p>Ihre Buchung wurde erfolgreich storniert und Sie erhalten eine Bestätigungs-E-Mail kurzzeitig.</p>" +:+ nl +:+
  "          <p>Vielen Dank für die Nutzung von TaxiBoy!</p>" +:+ nl +:+
  "        </body>" +:+ nl +:+
  "      </html>" +:+ nl +:+
  "    ".

(** [customerMailOptions.html] of the second revision, lines 341-364. *)
Definition customerMailOptions_html_en
    (bookingNumber type pickupLocation destination formattedDateTime vehicleType name phone email cancellationUrl : string) : string :=
  nl +:+
  "        <h1>Your Ride Has Been Booked!</h1>" +:+ nl +:+
  "        <div style=" +:+ dq +:+ "background-color: #f3f4f6; padding: 15px; margin: 20px 0; border-radius: 5px;" +:+ dq +:+ ">" +:+ nl +:+
  "          <h2 style=" +:+ dq +:+ "color: #1f2937; margin: 0;" +:+ dq +:+ ">Booking Number: " +:+ bookingNumber +:+ "</h2>" +:+ nl +:+
  "        </div>" +:+ nl +:+
  "        <p>Thank you for choosing TaxiBoy. Here are your booking details:</p>" +:+ nl +:+
  "        <ul style=" +:+ dq +:+ "list-style: none; padding: 0;" +:+ dq +:+ ">" +:+ nl +:+
  "          <li><strong>Booking Type:</strong> " +:+ type +:+ "</li>" +:+ nl +:+
  "          <li><strong>Pickup Location:</strong> " +:+ pickupLocation +:+ "</li>" +:+ nl +:+
  "          <li><strong>Destination:</strong> " +:+ destination +:+ "</li>" +:+ nl +:+
  "          <li><strong>Date/Time:</strong> " +:+ formattedDateTime +:+ "</li>" +:+ nl +:+
  "          <li><strong>Vehicle Type:</strong> " +:+ vehicleType +:+ "</li>" +:+ nl +:+
  "          <li><strong>Name:</strong> " +:+ name +:+ "</li>" +:+ nl +:+
  "          <li><strong>Phone:</strong> " +:+ phone +:+ "</li>" +:+ nl +:+
  "          <li><strong>Email:</strong> " +:+ email +:+ "</li>" +:+ nl +:+
  "        </ul>" +:+ nl +:+
  "        <p>Please keep your booking number for future reference.</p>" +:+ nl +:+
  "        <div style=" +:+ dq +:+ "margin: 20px 0; padding: 15px; background-color: #fee2e2; border-radius: 5px;" +:+ dq +:+ ">" +:+ nl +:+
  "          <p style=" +:+ dq +:+ "margin: 0; color: #991b1b;" +:+ dq +:+ ">Need to cancel your ride?</p>" +:+ nl +:+
  "          <p style=" +:+ dq +:+ "margin: 5px 0;" +:+ dq +:+ ">Click the link below to cancel your booking:</p>" +:+ nl +:+
  "          <a href=" +:+ dq +:+ cancellationUrl +:+ dq +:+ " style=" +:+ dq +:+ "display: inline-block; padding: 10px 20px; background-color: #dc2626; color: white; text-decoration: none; border-radius: 5px;" +:+ dq +:+ ">Cancel My Ride</a>" +:+ nl +:+
  "        </div>" +:+ nl +:+
  "        <p style=" +:+ dq +:+ "color: #6b7280; font-size: 0.875rem;" +:+ dq +:+ ">If you need any other modifications to your booking, please contact our support team.</p>" +:+ nl +:+
  "      ".

(** [adminMailOptions.html] of the second revision, lines 372-390. *)
Definition adminMailOptions_html_en
    (bookingNumber type pickupLocation destination formattedDateTime vehicleType name phone email : string) : string :=
  nl +:+
  "        <h1>New Booking Received</h1>" +:+ nl +:+
  "        <div style=" +:+ dq +:+ "background-color: #f3f4f6; padding: 15px; margin: 20px 0; border-radius: 5px;" +:+ dq +:+ ">" +:+ nl +:+
  "          <h2 style=" +:+ dq +:+ "color: #1f2937; margin: 0;" +:+ dq +:+ ">Booking Number: " +:+ bookingNumber +:+ "</h2>" +:+ nl +:+
  "        </div>" +:+ nl +:+
  "        <p>A new booking has been received. Details below:</p>" +:+ nl +:+
  "        <ul style=" +:+ dq +:+ "list-style: none; padding: 0;" +:+ dq +:+ ">" +:+ nl +:+
  "          <li><strong>Booking Type:</strong> " +:+ type +:+ "</li>" +:+ nl +:+
  "          <li><strong>Pickup Location:</strong> " +:+ pickupLocation +:+ "</li>" +:+ nl +:+
  "          <li><strong>Destination:</strong> " +:+ destination +:+ "</li>" +:+ nl +:+
  "          <li><strong>Date/Time:</strong> " +:+ formattedDateTime +:+ "</li>" +:+ nl +:+
  "          <li><strong>Vehicle Type:</strong> " +:+ vehicleType +:+ "</li>" +:+ nl +:+
  "          <hr>" +:+ nl +:+
  "          <li><strong>Customer Name:</strong> " +:+ name +:+ "</li>" +:+ nl +:+
  "          <li><strong>Customer Phone:</strong> " +:+ phone +:+ "</li>" +:+ nl +:+
  "          <li><strong>Customer Email:</strong> " +:+ email +:+ "</li>" +:+ nl +:+
  "        </ul>" +:+ nl +:+
  "        <p>Please assign a driver to this booking.</p>" +:+ nl +:+
  "      ".

(** [customerCancelMailOptions.html] of the second revision, lines 430-444. *)
Definition customerCancelMailOptions_html_en
    (bookingNumber name pickupLocation destination : string) : string :=
  nl +:+
  "        <h1>Your Ride Has Been Cancelled</h1>" +:+ nl +:+
  "        <div style=" +:+ dq +:+ "background-color: #fee2e2; padding: 15px; margin: 20px 0; border-radius: 5px;" +:+ dq +:+ ">" +:+ nl +:+
  "          <h2 style=" +:+ dq +:+ "color: #991b1b; margin: 0;" +:+ dq +:+ ">Booking #" +:+ bookingNumber +:+ " has been cancelled</h2>" +:+ nl +:+
  "        </div>" +:+ nl +:+
  "        <p>Your booking has been successfully cancelled. Here are the details of the cancelled booking:</p>" +:+ nl +:+
  "        <ul style=" +:+ dq +:+ "list-style: none; padding: 0;" +:+ dq +:+ ">" +:+ nl +:+
  "          <li><strong>Booking Number:</strong> " +:+ bookingNumber +:+ "</li>" +:+ nl +:+
  "          <li><strong>Name:</strong> " +:+ name +:+ "</li>" +:+ nl +:+
  "          <li><strong>Pickup Location:</strong> " +:+ pickupLocation +:+ "</li>" +:+ nl +:+
  "          <li><strong>Destination:</strong> " +:+ destination +:+ "</li>" +:+ nl +:+
  "        </ul>" +:+ nl +:+
  "        <p>If you need to book another ride, please visit our website.</p>" +:+ nl +:+
  "        <p>Thank you for choosing TaxiBoy!</p>" +:+ nl +:+
  "      ".

(** [adminCancelMailOptions.html] of the second revision, lines 452-468. *)
Definition adminCancelMailOptions_html_en
    (bookingNumber name email phone pickupLocation destination vehicleType : string) : string :=
  nl +:+
  "        <h1>Booking Cancellation Notice</h1>" +:+ nl +:+
  "        <div style=" +:+ dq +:+ "background-color: #fee2e2; padding: 15px; margin: 20px 0; border-radius: 5px;" +:+ dq +:+ ">" +:+ nl +:+
  "          <h2 style=" +:+ dq +:+ "color: #991b1b; margin: 0;" +:+ dq +:+ ">Booking #" +:+ bookingNumber +:+ " has been cancelled</h2>" +:+ nl +:+
  "        </div>" +:+ nl +:+
  "        <p>A customer has cancelled their booking. Details below:</p>" +:+ nl +:+
  "        <ul style=" +:+ dq +:+ "list-style: none; padding: 0;" +:+ dq +:+ ">" +:+ nl +:+
  "          <li><strong>Booking Number:</strong> " +:+ bookingNumber +:+ "</li>" +:+ nl +:+
  "          <li><strong>Customer Name:</strong> " +:+ name +:+ "</li>" +:+ nl +:+
  "          <li><strong>Customer Email:</strong> " +:+ email +:+ "</li>" +:+ nl +:+
  "          <li><strong>Customer Phone:</strong> " +:+ phone +:+ "</li>" +:+ nl +:+
  "          <li><strong>Pickup Location:</strong> " +:+ pickupLocation +:+ "</li>" +:+ nl +:+
  "          <li><strong>Destination:</strong> " +:+ destination +:+ "</li>" +:+ nl +:+
  "          <li><strong>Vehicle Type:</strong> " +:+ vehicleType +:+ "</li>" +:+ nl +:+
  "        </ul>" +:+ nl +:+
  "        <p>Please update the scheduling system accordingly.</p>" +:+ nl +:+
  "      ".

(** The success page of the second revision, lines 481-515. *)
Definition success_page_en
    (bookingNumber : string) : string :=
  nl +:+
  "      <html>" +:+ nl +:+
  "        <head>" +:+ nl +:+
  "          <title>Booking Cancelled</title>" +:+ nl +:+
  "          <style>" +:+ nl +:+
  "            body {" +:+ nl +:+
  "              font-family: Arial, sans-serif;" +:+ nl +:+
  "              max-width: 600px;" +:+ nl +:+
  "              margin: 40px auto;" +:+ nl +:+
  "              padding: 20px;" +:+ nl +:+
  "              text-align: center;" +:+ nl +:+
  "            }" +:+ nl +:+
  "            .success-box {" +:+ nl +:+
  "              background-color: #fee2e2;" +:+ nl +:+
  "              border-radius: 8px;" +:+ nl +:+
  "              padding: 20px;" +:+ nl +:+
  "              margin: 20px 0;" +:+ nl +:+
  "            }" +:+ nl +:+
  "            .booking-number {" +:+ nl +:+
  "              font-size: 1.2em;" +:+ nl +:+
  "              font-weight: bold;" +:+ nl +:+
  "              color: #991b1b;" +:+ nl +:+
  "            }" +:+ nl +:+
  "          </style>" +:+ nl +:+
  "        </head>" +:+ nl +:+
  "        <body>" +:+ nl +:+
  "          <div class=" +:+ dq +:+ "success-box" +:+ dq +:+ ">" +:+ nl +:+
  "            <h1>Booking Cancelled Successfully</h1>" +:+ nl +:+
  "            <p class=" +:+ dq +:+ "booking-number" +:+ dq +:+ ">Booking #" +:+ bookingNumber +:+ "</p>" +:+ nl +:+
  "          </div>" +:+ nl +:+
  "          <p>Your booking has been cancelled and you will receive a confirmation email shortly.</p>" +:+ nl +:+
  "          <p>Thank you for using TaxiBoy!</p>" +:+ nl +:+
  "        </body>" +:+ nl +:+
  "      </html>" +:+ nl +:+
  "    ".

(** [adminMailOptions.html] of the third revision, lines 604-615. *)
Definition legacy_adminMailOptions_html
    (type email phone pickupLocation destination dateTime : string) : string :=
  nl +:+
  "      <h2>New booking received!</h2>" +:+ nl +:+
  "      <p><strong>Ride Type:</strong> " +:+ type +:+ "</p>" +:+ nl +:+
  "      <p><strong>Customer Details:</strong></p>" +:+ nl +:+
  "      <ul>" +:+ nl +:+
  "        <li>Email: " +:+ email +:+ "</li>" +:+ nl +:+
  "        <li>Phone: " +:+ phone +:+ "</li>" +:+ nl +:+
  "      </ul>" +:+ nl +:+
  "      <p><strong>Pickup Location:</strong> " +:+ pickupLocation +:+ "</p>" +:+ nl +:+
  "      <p><strong>Destination:</strong> " +:+ destination +:+ "</p>" +:+ nl +:+
  "      <p><strong>Date/Time:</strong> " +:+ dateTime +:+ "</p>" +:+ nl +:+
  "    ".

(** [customerMailOptions.html] of the third revision, lines 623-636. *)
Definition legacy_customerMailOptions_html
    (type pickupLocation destination dateTime : string) : string :=
  nl +:+
  "      <h2>Thank you for booking with TaxiBoy!</h2>" +:+ nl +:+
  "      <p>Your booking details:</p>" +:+ nl +:+
  "      <ul>" +:+ nl +:+
  "        <li><strong>Ride Type:</strong> " +:+ type +:+ "</li>" +:+ nl +:+
  "        <li><strong>Pickup Location:</strong> " +:+ pickupLocation +:+ "</li>" +:+ nl +:+
  "        <li><strong>Destination:</strong> " +:+ destination +:+ "</li>" +:+ nl +:+
  "        <li><strong>Date/Time:</strong> " +:+ dateTime +:+ "</li>" +:+ nl +:+
  "      </ul>" +:+ nl +:+
  "      <p>We'll be in touch shortly to confirm your ride.</p>" +:+ nl +:+
  "      <p>If you need to modify your booking, please contact us.</p>" +:+ nl +:+
  "      <br>" +:+ nl +:+
  "      <p>Best regards,<br>TaxiBoy Team</p>" +:+ nl +:+
  "    ".

End Templates.

(** ** The server with the booking store (first and second revision) *)

Module Server.
Import Js Templates.

(** The first revision carries German texts and a configurable base URL,
    the second one English texts and a fixed local base URL. *)
Inductive variant := German | English.

(** What the process reads from its surroundings once: [process.env] and
    the host's locale data and time zone, through which
    [new Date(p).toLocaleString('en-US', { dateStyle: 'full', timeStyle:
    'short' })] prints the primitive [p]. *)
Record environment := {
  PORT : option string;
  NODE_ENV : option string;
  BASE_URL : option string;
  EMAIL_USER : option string;
  toLocaleString : value -> string
}.

(** [const port = process.env.PORT || 3001], as a template prints it: an
    empty string is falsy. *)
Definition port (env : environment) : string :=
  match PORT env with
  | Some s => if bool_decide (s = EmptyString) then "3001" else s
  | None => "3001"
  end.

(** [baseUrl] of the first revision, as a template prints it. *)
Definition baseUrl (env : environment) : string :=
  if strict_equals_string (env_value (NODE_ENV env)) "production"
  then match BASE_URL env with Some s => s | None => "undefined" end
  else "http://localhost:" +:+ port env.

(** A message handed to [transporter.sendMail]. *)
Record mail := {
  from : value;
  to : value;
  subject : string;
  html : string
}.

(** [res.status(s).json(body)] and [res.status(s).send(text)]. *)
Inductive response :=
  | json (status : nat) (body : list (string * value))
  | send (status : nat) (body : string).

Definition status_of (r : response) : nat :=
  match r with json s _ | send s _ => s end.

(** The effects of the handlers, in the order they happen.  [SendMail]
    records the call of [transporter.sendMail], not its outcome. *)
Inductive event :=
  | StoreSet (token : string) (record : obj)
  | StoreDelete (token : string)
  | SendMail (m : mail)
  | ConsoleError (label : string) (e : error).

(** The process state: the map [activeBookings] and the trace so far. *)
Record world := {
  activeBookings : gmap string obj;
  trace : list event
}.

Definition emit (ev : event) (w : world) : world :=
  {| activeBookings := activeBookings w; trace := trace w ++ [ev] |}.

(** [activeBookings.set(token, record)] *)
Definition Map_set (token : string) (record : obj) (w : world) : world :=
  emit (StoreSet token record)
    {| activeBookings := <[token := record]> (activeBookings w); trace := trace w |}.

(** [activeBookings.delete(token)] *)
Definition Map_delete (token : string) (w : world) : world :=
  emit (StoreDelete token)
    {| activeBookings := delete token (activeBookings w); trace := trace w |}.

(** [req.query.token] as the query parser leaves it: missing, a string, or
    (for [?token=a&token=b] and [?token[k]=a]) a fresh array or object. *)
Inductive query_param :=
  | QMissing
  | QString (s : string)
  | QNested.

(** [activeBookings.get(token)]: the keys of the map are strings, and
    [undefined] or a fresh object equals none of them. *)
Definition Map_get (w : world) (token : query_param) : option obj :=
  match token with
  | QString s => activeBookings w !! s
  | QMissing | QNested => None
  end.

(** [activeBookings.has(token)] *)
Definition Map_has (w : world) (token : query_param) : bool :=
  bool_decide (is_Some (Map_get w token)).

(** What one request draws from the clock and the random sources:
    [Date.now()], [Math.floor(Math.random() * 1000)], the buffer of
    [crypto.randomBytes(32)] and [new Date().toISOString()]. *)
Record draws := {
  Date_now : Z;
  random_floor : N;
  randomBytes : list byte;
  toISOString : string
}.

(** How a promise of [sendMail] settles. *)
Inductive settled :=
  | Fulfilled
  | Rejected (e : error).

(** The outcome of the two sends of one request; when both are rejected,
    [Promise.all] rejects with the error of the one that settles first. *)
Record delivery := {
  customer_send : settled;
  admin_send : settled;
  admin_settles_first : bool
}.

(** [await Promise.all([sendMail(customer), sendMail(admin)])] *)
Definition Promise_all (d : delivery) : result () :=
  match customer_send d, admin_send d with
  | Fulfilled, Fulfilled => Ok ()
  | Rejected e, Fulfilled => Throw e
  | Fulfilled, Rejected e => Throw e
  | Rejected ec, Rejected ea => Throw (if admin_settles_first d then ea else ec)
  end.

(** *** Identifiers *)

Definition generateBookingNumber (now : Z) (random_draw : N) : string :=
  let prefix := "TB" in
  let timestamp := slice_last 6 (Z_toString now) in
  let random := padStart 3 "0" (N_toString random_draw) in
  prefix +:+ timestamp +:+ random.

(** The shape of a booking number: [TB] and nine decimal digits. *)
Definition is_booking_number (s : string) : bool :=
  is_prefix "TB" s && bool_decide (String.length s = 11) && all_chars is_digit (skip 2 s).

Definition generateCancellationToken (bytes : list byte) : string :=
  toString_hex bytes.

(** *** The texts that differ between the two revisions *)

Definition scheduled_label (v : variant) : string :=
  match v with German => "Geplante Fahrt" | English => "Scheduled Ride" end.

Definition immediate_phrase (v : variant) : string :=
  match v with German => "Sofort" | English => "As soon as possible" end.

Definition cancellationUrl (v : variant) (env : environment) (token : string) : string :=
  match v with
  | German => baseUrl env +:+ "/api/cancel-ride?token=" +:+ token
  | English => "http://localhost:" +:+ port env +:+ "/api/cancel-ride?token=" +:+ token
  end.

Definition booking_confirmed (v : variant) : string :=
  match v with
  | German => "Buchung erfolgreich! Überprüfen Sie Ihre E-Mail (Spam-Ordner) für weitere Informationen."
  | English => "Booking confirmed! Check your email (spam folder) for details."
  end.

Definition booking_failed (v : variant) : string :=
  match v with
  | German => "Fehler beim Buchen. Fehler beim Verarbeiten der Buchung. Bitte versuchen Sie es erneut."
  | English => "Failed to process booking. Please try again."
  end.

Definition not_found (v : variant) : string :=
  match v with
  | German => "Buchung nicht gefunden oder bereits storniert."
  | English => "Booking not found or already cancelled."
  end.

Definition cancel_failed (v : variant) : string :=
  match v with
  | German => "Buchung konnte nicht storniert werden. Bitte versuchen Sie es erneut oder kontaktieren Sie den Support"
  | English => "Failed to cancel booking. Please try again or contact support."
  end.

Definition cancel_error_label (v : variant) : string :=
  match v with
  | German => "Buchung konnte nicht storniert werden:"
  | English => "Cancellation error:"
  end.

Definition customer_subject (v : variant) (bookingNumber : string) : string :=
  match v with
  | German => "TaxiBoy - Buchung Bestätigt #" +:+ bookingNumber
  | English => "TaxiBoy - Booking Confirmation #" +:+ bookingNumber
  end.

Definition admin_subject (v : variant) (bookingNumber : string) : string :=
  match v with
  | German => "[ADMIN] Neue Buchung erhalten #" +:+ bookingNumber
  | English => "[ADMIN] New Booking #" +:+ bookingNumber
  end.

Definition customer_cancel_subject (v : variant) (bookingNumber : string) : string :=
  match v with
  | German => "TaxiBoy - Buchungsstornierung Bestätigung #" +:+ bookingNumber
  | English => "TaxiBoy - Booking Cancellation Confirmation #" +:+ bookingNumber
  end.

Definition admin_cancel_subject (v : variant) (bookingNumber : string) : string :=
  match v with
  | German => "[ADMIN] Buchung Storniert #" +:+ bookingNumber
  | English => "[ADMIN] Booking Cancelled #" +:+ bookingNumber
  end.

Definition customer_html (v : variant) :=
  match v with German => customerMailOptions_html_de | English => customerMailOptions_html_en end.

Definition admin_html (v : variant) :=
  match v with German => adminMailOptions_html_de | English => adminMailOptions_html_en end.

Definition customer_cancel_html (v : variant) :=
  match v with
  | German => customerCancelMailOptions_html_de
  | English => customerCancelMailOptions_html_en
  end.

Definition admin_cancel_html (v : variant) :=
  match v with
  | German => adminCancelMailOptions_html_de
  | English => adminCancelMailOptions_html_en
  end.

Definition success_page (v : variant) :=
  match v with German => success_page_de | English => success_page_en end.

(** The line of the customer mail that shows the requested time. *)
Definition customer_date_line (v : variant) (formatted : string) : string :=
  match v with
  | German => "          <li><strong>Datum/Zeit:</strong> " +:+ formatted +:+ "</li>"
  | English => "          <li><strong>Date/Time:</strong> " +:+ formatted +:+ "</li>"
  end.

(** *** POST /api/book-ride *)

(** The record stored for a booking:
    [{ bookingNumber, ...bookingData, timestamp: new Date().toISOString() }]. *)
Definition booking_record (bookingNumber : string) (bookingData : obj) (timestamp : string) : obj :=
  <["timestamp" := VStr timestamp]>
    (spread_onto {["bookingNumber" := VStr bookingNumber]} bookingData).

Definition formattedDateTime (v : variant) (env : environment) (bookingData : obj) : result string :=
  if strict_equals_string (get bookingData "type") (scheduled_label v)
     && negb (strict_equals_string (get bookingData "dateTime") "As soon as possible")
  then p ← ToPrimitive (get bookingData "dateTime"); Ok (toLocaleString env p)
  else Ok (immediate_phrase v).

Definition customerMailOptions (v : variant) (env : environment) (bookingData : obj)
    (bookingNumber formatted url : string) : result mail :=
  type ← ToString (get bookingData "type");
  pickupLocation ← ToString (get bookingData "pickupLocation");
  destination ← ToString (get bookingData "destination");
  vehicleType ← ToString (get bookingData "vehicleType");
  name ← ToString (get bookingData "name");
  phone ← ToString (get bookingData "phone");
  email ← ToString (get bookingData "email");
  Ok {| from := env_value (EMAIL_USER env);
        to := get bookingData "email";
        subject := customer_subject v bookingNumber;
        html := customer_html v bookingNumber type pickupLocation destination formatted
                  vehicleType name phone email url |}.

Definition adminMailOptions (v : variant) (env : environment) (bookingData : obj)
    (bookingNumber formatted : string) : result mail :=
  type ← ToString (get bookingData "type");
  pickupLocation ← ToString (get bookingData "pickupLocation");
  destination ← ToString (get bookingData "destination");
  vehicleType ← ToString (get bookingData "vehicleType");
  name ← ToString (get bookingData "name");
  phone ← ToString (get bookingData "phone");
  email ← ToString (get bookingData "email");
  Ok {| from := env_value (EMAIL_USER env);
        to := env_value (EMAIL_USER env);
        subject := admin_subject v bookingNumber;
        html := admin_html v bookingNumber type pickupLocation destination formatted
                  vehicleType name phone email |}.

(** The body of the [catch] clause. *)
Definition booking_failure (v : variant) : response :=
  json 500 [("success", VBool false); ("error", VStr (booking_failed v))].

Definition booking_success (v : variant) (bookingNumber : string) : response :=
  json 200 [("success", VBool true);
            ("message", VStr (booking_confirmed v));
            ("bookingNumber", VStr bookingNumber)].

(** A booking request in flight: suspended at [await Promise.all], or
    answered. *)
Inductive book_task :=
  | BookAwaiting (bookingNumber : string)
  | BookResponded (r : response).

(** The handler up to its [await]: identifiers, the store, the two mails
    and the two calls of [sendMail]. *)
Definition book_ride_begin (v : variant) (env : environment) (n : draws)
    (bookingData : obj) (w : world) : book_task * world :=
  let bookingNumber := generateBookingNumber (Date_now n) (random_floor n) in
  let cancellationToken := generateCancellationToken (randomBytes n) in
  let url := cancellationUrl v env cancellationToken in
  let w := Map_set cancellationToken
             (booking_record bookingNumber bookingData (toISOString n)) w in
  let mails :=
    formatted ← formattedDateTime v env bookingData;
    customer ← customerMailOptions v env bookingData bookingNumber formatted url;
    admin ← adminMailOptions v env bookingData bookingNumber formatted;
    Ok (customer, admin) in
  match mails with
  | Ok (customer, admin) =>
      (BookAwaiting bookingNumber, emit (SendMail admin) (emit (SendMail customer) w))
  | Throw e =>
      (BookResponded (booking_failure v), emit (ConsoleError "Booking error:" e) w)
  end.

(** The handler from its [await] on. *)
Definition book_ride_resume (v : variant) (bookingNumber : string) (d : delivery)
    (w : world) : response * world :=
  match Promise_all d with
  | Ok _ => (booking_success v bookingNumber, w)
  | Throw e => (booking_failure v, emit (ConsoleError "Booking error:" e) w)
  end.

(** One booking request served from start to end. *)
Definition book_ride (v : variant) (env : environment) (n : draws) (d : delivery)
    (bookingData : obj) (w : world) : response * world :=
  match book_ride_begin v env n bookingData w with
  | (BookAwaiting bookingNumber, w') => book_ride_resume v bookingNumber d w'
  | (BookResponded r, w') => (r, w')
  end.

(** *** GET /api/cancel-ride *)

Definition customerCancelMailOptions (v : variant) (env : environment) (booking : obj)
    : result mail :=
  bookingNumber ← ToString (get booking "bookingNumber");
  name ← ToString (get booking "name");
  pickupLocation ← ToString (get booking "pickupLocation");
  destination ← ToString (get booking "destination");
  Ok {| from := env_value (EMAIL_USER env);
        to := get booking "email";
        subject := customer_cancel_subject v bookingNumber;
        html := customer_cancel_html v bookingNumber name pickupLocation destination |}.

Definition adminCancelMailOptions (v : variant) (env : environment) (booking : obj)
    : result mail :=
  bookingNumber ← ToString (get booking "bookingNumber");
  name ← ToString (get booking "name");
  email ← ToString (get booking "email");
  phone ← ToString (get booking "phone");
  pickupLocation ← ToString (get booking "pickupLocation");
  destination ← ToString (get booking "destination");
  vehicleType ← ToString (get booking "vehicleType");
  Ok {| from := env_value (EMAIL_USER env);
        to := env_value (EMAIL_USER env);
        subject := admin_cancel_subject v bookingNumber;
        html := admin_cancel_html v bookingNumber name email phone pickupLocation
                  destination vehicleType |}.

Definition cancel_not_found (v : variant) : response := send 404 (not_found v).

Definition cancel_failure (v : variant) : response := send 500 (cancel_failed v).

(** A cancellation request once its handler has started: suspended at
    [await Promise.all] with its [token] and [booking], or answered. *)
Inductive cancel_task :=
  | CancelAwaiting (token : string) (booking : obj)
  | CancelResponded (r : response).

(** The handler up to its [await]. *)
Definition cancel_ride_begin (v : variant) (env : environment) (token : query_param)
    (w : world) : cancel_task * world :=
  if negb (Map_has w token) then (CancelResponded (cancel_not_found v), w)
  else
    let mails :=
      match token, Map_get w token with
      | QString key, Some booking =>
          customer ← customerCancelMailOptions v env booking;
          admin ← adminCancelMailOptions v env booking;
          Ok (key, booking, customer, admin)
      | _, _ => Throw (TypeError "Cannot read properties of undefined (reading 'email')")
      end in
    match mails with
    | Ok (key, booking, customer, admin) =>
        (CancelAwaiting key booking, emit (SendMail admin) (emit (SendMail customer) w))
    | Throw e =>
        (CancelResponded (cancel_failure v), emit (ConsoleError (cancel_error_label v) e) w)
    end.

(** The handler from its [await] on: the record goes only once both sends
    are through. *)
Definition cancel_ride_resume (v : variant) (token : string) (booking : obj)
    (d : delivery) (w : world) : response * world :=
  match Promise_all d with
  | Ok _ =>
      let w := Map_delete token w in
      match ToString (get booking "bookingNumber") with
      | Ok bookingNumber => (send 200 (success_page v bookingNumber), w)
      | Throw e => (cancel_failure v, emit (ConsoleError (cancel_error_label v) e) w)
      end
  | Throw e => (cancel_failure v, emit (ConsoleError (cancel_error_label v) e) w)
  end.

(** One cancellation request served from start to end. *)
Definition cancel_ride (v : variant) (env : environment) (d : delivery)
    (token : query_param) (w : world) : response * world :=
  match cancel_ride_begin v env token w with
  | (CancelAwaiting key booking, w') => cancel_ride_resume v key booking d w'
  | (CancelResponded r, w') => (r, w')
  end.

(** *** Requests in flight at the same time

    Node runs a handler until its [await] and resumes it when the promise
    settles; in between it runs other handlers.  [cancel_step] advances one
    request by one such stretch, and a schedule says whose turn it is. *)

Inductive cancel_request :=
  | Received (token : query_param)
  | Started (t : cancel_task).

Definition cancel_step (v : variant) (env : environment) (d : delivery)
    (q : cancel_request) (w : world) : cancel_request * world :=
  match q with
  | Received token =>
      let (t, w') := cancel_ride_begin v env token w in (Started t, w')
  | Started (CancelAwaiting key booking) =>
      let (r, w') := cancel_ride_resume v key booking d w in (Started (CancelResponded r), w')
  | Started (CancelResponded r) => (q, w)
  end.

Inductive turn := First | Second.

Record two_requests := {
  first : cancel_request;
  second : cancel_request;
  shared : world
}.

Definition turn_step (v : variant) (env : environment) (d1 d2 : delivery)
    (s : two_requests) (t : turn) : two_requests :=
  match t with
  | First =>
      let (t', w') := cancel_step v env d1 (first s) (shared s) in
      {| first := t'; second := second s; shared := w' |}
  | Second =>
      let (t', w') := cancel_step v env d2 (second s) (shared s) in
      {| first := first s; second := t'; shared := w' |}
  end.

Definition run_schedule (v : variant) (env : environment) (d1 d2 : delivery)
    (schedule : list turn) (s : two_requests) : two_requests :=
  foldl (turn_step v env d1 d2) s schedule.

(** The mails handed to [sendMail] so far. *)
Definition sent_mails (w : world) : list mail :=
  omap (λ ev, match ev with SendMail m => Some m | _ => None end) (trace w).

End Server.

(** ** The third revision: mails only, no store *)

Module Legacy.
Import Js Templates.

Inductive event :=
  | ConsoleLog (label : string)
  | ConsoleError (label : string) (e : error)
  | SendMail (m : Server.mail).

(** What the route does with a request: it answers, or the promise of the
    handler is rejected outside its [try] and the route never answers. *)
Inductive outcome :=
  | Responded (r : Server.response)
  | Escaped (e : error).

Definition adminMailOptions (EMAIL_USER : option string) (body : obj) : result Server.mail :=
  type ← ToString (get body "type");
  email ← ToString (get body "email");
  phone ← ToString (get body "phone");
  pickupLocation ← ToString (get body "pickupLocation");
  destination ← ToString (get body "destination");
  dateTime ← ToString (get body "dateTime");
  Ok {| Server.from := env_value EMAIL_USER;
        Server.to := env_value EMAIL_USER;
        Server.subject := "New Ride Booking - TaxiBoy";
        Server.html := legacy_adminMailOptions_html type email phone pickupLocation
                         destination dateTime |}.

Definition customerMailOptions (EMAIL_USER : option string) (body : obj) : result Server.mail :=
  type ← ToString (get body "type");
  pickupLocation ← ToString (get body "pickupLocation");
  destination ← ToString (get body "destination");
  dateTime ← ToString (get body "dateTime");
  Ok {| Server.from := env_value EMAIL_USER;
        Server.to := get body "email";
        Server.subject := "Your TaxiBoy Ride Booking Confirmation";
        Server.html := legacy_customerMailOptions_html type pickupLocation destination
                         dateTime |}.

(** The body of the [catch] clause: the fixed text and [error.message]. *)
Definition booking_failure (e : error) : Server.response :=
  Server.json 500 [("message", VStr "Failed to process booking. Please try again.");
                   ("error", VStr (message e))].

Definition booking_success : Server.response :=
  Server.json 200 [("message", VStr "Booking confirmed! Check your email for details.")].

(** POST /api/book-ride: the two mails are built before the [try], the
    admin mail is sent and awaited first, the customer mail after it. *)
Definition book_ride (EMAIL_USER : option string) (admin_send customer_send : Server.settled)
    (body : obj) : outcome * list event :=
  let received := [ConsoleLog "Received booking request:"] in
  match admin ← adminMailOptions EMAIL_USER body;
        customer ← customerMailOptions EMAIL_USER body;
        Ok (admin, customer) with
  | Throw e => (Escaped e, received)
  | Ok (admin, customer) =>
      let tried_admin :=
        received ++ [ConsoleLog "Attempting to send admin email..."; SendMail admin] in
      match admin_send with
      | Server.Rejected e =>
          (Responded (booking_failure e),
           tried_admin ++ [ConsoleError "Detailed error sending emails:" e])
      | Server.Fulfilled =>
          let tried_customer :=
            tried_admin ++ [ConsoleLog "Admin email sent:";
                            ConsoleLog "Attempting to send customer email...";
                            SendMail customer] in
          match customer_send with
          | Server.Rejected e =>
              (Responded (booking_failure e),
               tried_customer ++ [ConsoleError "Detailed error sending emails:" e])
          | Server.Fulfilled =>
              (Responded booking_success,
               tried_customer ++ [ConsoleLog "Customer email sent:"])
          end
      end
  end.

End Legacy.

(** ** Sample requests

    Concrete inputs at which the theorems below are instantiated. *)

Module Sample.
Import Js Server.

(** A host in UTC whose locale data prints the one date of the samples. *)
Definition env : environment := {|
  PORT := None;
  NODE_ENV := None;
  BASE_URL := None;
  EMAIL_USER := Some "taxi@example.com";
  toLocaleString := λ p,
    if strict_equals_string p "2025-03-01T10:00:00Z"
    then "Saturday, March 1, 2025 at 10:00 AM"
    else "Invalid Date"
|}.

Definition now : draws := {|
  Date_now := 1740823200123;
  random_floor := 7;
  randomBytes := replicate 32 "171"%byte;
  toISOString := "2025-03-01T10:00:00.123Z"
|}.

Definition token : string := generateCancellationToken (randomBytes now).

Definition contact : list (string * value) :=
  [("pickupLocation", VStr "Hauptbahnhof");
   ("destination", VStr "Flughafen");
   ("vehicleType", VStr "Kombi");
   ("name", VStr "Ada");
   ("phone", VStr "+49 30 1234567");
   ("email", VStr "ada@example.com")].

(** The request of the scenario: [type] is the word [scheduled]. *)
Definition scheduled : obj :=
  list_to_map (("type", VStr "scheduled") :: ("dateTime", VStr "2025-03-01T10:00:00Z") :: contact).

(** The same request with the label the English revision tests for. *)
Definition scheduled_ride : obj :=
  list_to_map (("type", VStr "Scheduled Ride") :: ("dateTime", VStr "2025-03-01T10:00:00Z") :: contact).

(** A request that brings its own [bookingNumber] and [timestamp]. *)
Definition forged : obj :=
  list_to_map (("bookingNumber", VStr "TB000000000") :: ("timestamp", VStr "1999-01-01T00:00:00.000Z")
               :: ("type", VStr "Immediate Ride") :: ("dateTime", VStr "As soon as possible") :: contact).

(** A request whose [bookingNumber] is an object with an own [toString]. *)
Definition unprintable : obj :=
  <["bookingNumber" := VObj {["toString" := VNum "1"]}]> scheduled_ride.

Definition empty : world := {| activeBookings := ∅; trace := [] |}.

Definition delivered : delivery :=
  {| customer_send := Fulfilled; admin_send := Fulfilled; admin_settles_first := false |}.

Definition bad_login : error :=
  MailError "Invalid login: 535-5.7.8 Username and Password not accepted.".

Definition timed_out : error := MailError "connect ETIMEDOUT 142.250.27.108:465".

Definition undelivered : delivery :=
  {| customer_send := Rejected bad_login; admin_send := Fulfilled; admin_settles_first := false |}.

(** The store after the [scheduled_ride] booking went through. *)
Definition booked : world := snd (book_ride English env now delivered scheduled_ride empty).

End Sample.

(** ** Start-up configuration and runs of requests *)

Module Setup.
Import Js.

(** [Boolean(v)], the test of [filter(Boolean)] and of [||]. *)
Definition ToBoolean (v : value) : bool :=
  match v with
  | VUndefined | VNull => false
  | VBool b => b
  | VNum shown => negb (bool_decide (shown = "0"))
  | VStr s => negb (bool_decide (s = EmptyString))
  | VArr _ | VObj _ => true
  end.

(** [corsOptions.origin] of the first revision (lines 18-22): the two
    local origins and [process.env.FRONTEND_URL], through
    [filter(Boolean)]. *)
Definition corsOptions_origin (FRONTEND_URL : option string) : list value :=
  filter (λ v, Is_true (ToBoolean v))
    [VStr "http://localhost:5173"; VStr "http://127.0.0.1:5173"; env_value FRONTEND_URL].

(** [corsOptions.origin] of the third revision (lines 545-548):
    [process.env.FRONTEND_URL || 'http://localhost:5173']. *)
Definition legacy_corsOptions_origin (FRONTEND_URL : option string) : value :=
  if ToBoolean (env_value FRONTEND_URL) then env_value FRONTEND_URL
  else VStr "http://localhost:5173".

End Setup.

Module Runs.
Import Js Server.

(** The properties of the request body that the booking mails print, and
    those of the stored record that the cancellation mails print. *)
Definition printed_by_booking : list string :=
  ["type"; "pickupLocation"; "destination"; "vehicleType"; "name"; "phone"; "email"].

Definition printed_by_cancellation : list string :=
  ["bookingNumber"; "name"; "pickupLocation"; "destination"; "email"; "phone"; "vehicleType"].

(** The properties the mails of the third revision print. *)
Definition printed_by_legacy : list string :=
  ["type"; "email"; "phone"; "pickupLocation"; "destination"; "dateTime"].

(** [v] prints: [ToString] returns. *)
Definition prints (v : value) : bool :=
  match ToString v with Ok _ => true | Throw _ => false end.

(** The same cancellation link opened again and again, each request
    served to its end before the next; [ds] gives the outcome of the sends
    of each request. *)
Fixpoint cancel_attempts (v : variant) (env : environment) (ds : list delivery)
    (token : query_param) (w : world) : list response * world :=
  match ds with
  | [] => ([], w)
  | d :: ds' =>
      let (r, w1) := cancel_ride v env d token w in
      let (rs, w2) := cancel_attempts v env ds' token w1 in
      (r :: rs, w2)
  end.

(** How many of the answers are a 200. *)
Definition successes (rs : list response) : nat :=
  List.length (filter (λ r, status_of r = 200) rs).

(** The request has been answered with a 200. *)
Definition succeeded (q : cancel_request) : bool :=
  match q with
  | Started (CancelResponded r) => bool_decide (status_of r = 200)
  | _ => false
  end.

(** The request is about [token]. *)
Definition about_token (token : string) (q : cancel_request) : Prop :=
  match q with
  | Received t => t = QString token
  | Started (CancelAwaiting key _) => key = token
  | Started (CancelResponded _) => True
  end.

(** The mails a request has handed to [sendMail] at most: none before
    its handler starts, two from then on. *)
Definition mails_of (q : cancel_request) : nat :=
  match q with Received _ => 0 | Started _ => 2 end.

(** What holds of two requests for [token] that started on the world
    [w0], however their stretches are interleaved. *)
Definition overlap_invariant (token : string) (w0 : world) (s : two_requests) : Prop :=
  about_token token (first s) ∧ about_token token (second s)
  ∧ (∀ key, key ≠ token → activeBookings (shared s) !! key = activeBookings w0 !! key)
  ∧ (activeBookings (shared s) !! token = activeBookings w0 !! token
     ∨ activeBookings (shared s) !! token = None)
  ∧ (succeeded (first s) || succeeded (second s) = true →
     activeBookings (shared s) !! token = None)
  ∧ (List.length (sent_mails (shared s))
     ≤ List.length (sent_mails w0) + mails_of (first s) + mails_of (second s))%nat.

(** The mails handed to [sendMail] by the third revision. *)
Definition legacy_sent_mails (events : list Legacy.event) : list mail :=
  omap (λ ev, match ev with Legacy.SendMail m => Some m | _ => None end) events.

End Runs.

(** More sample requests. *)
Module Later.
Import Js Server.

(** A second request, 1000 seconds after [Sample.now], with the same
    draw for the number and other random bytes. *)
Definition now : draws := {|
  Date_now := 1740824200123;
  random_floor := 7;
  randomBytes := replicate 32 "018"%byte;
  toISOString := "2025-03-01T10:16:40.123Z"
|}.

Definition token : string := generateCancellationToken (randomBytes now).

End Later.

(** ** Facts about the runtime fragments *)

Module JsFacts.
Import Js.

#[local] Arguments String.append !_ _ : simpl nomatch.

Lemma append_assoc (a b c : string) : (a +:+ b) +:+ c = a +:+ b +:+ c.
Proof. induction a as [|x a IH]; simpl; [done | by f_equal]. Qed.

Lemma append_empty_r (a : string) : a +:+ EmptyString = a.
Proof. induction a as [|x a IH]; simpl; [done | by f_equal]. Qed.

Lemma length_append (a b : string) :
  String.length (a +:+ b) = String.length a + String.length b.
Proof. induction a as [|x a IH]; simpl; [done | by f_equal]. Qed.

Lemma skip_append (a b : string) : skip (String.length a) (a +:+ b) = b.
Proof. induction a as [|x a IH]; simpl; done. Qed.

(** [slice(-k)] of a text that ends in [k] characters is those characters. *)
Lemma slice_last_append (k : nat) (a b : string) :
  String.length b = k → slice_last k (a +:+ b) = b.
Proof.
  intros <-. unfold slice_last. rewrite length_append.
  replace (String.length a + String.length b - String.length b)
    with (String.length a) by lia.
  apply skip_append.
Qed.

Lemma all_chars_append (p : ascii → bool) (a b : string) :
  all_chars p (a +:+ b) = all_chars p a && all_chars p b.
Proof. induction a as [|x a IH]; simpl; [done | by rewrite IH, andb_assoc]. Qed.

(** *** Decimal printing *)

Lemma length_last_digits (k : nat) (n : N) : String.length (last_digits k n) = k.
Proof.
  revert n; induction k as [|k IH]; intros n; simpl; [done|].
  rewrite length_append, IH. simpl. lia.
Qed.

Lemma is_digit_digit_char (d : N) : (d < 10)%N → is_digit (digit_char d) = true.
Proof.
  intros H. unfold is_digit, digit_char.
  rewrite N_ascii_embedding by lia.
  apply andb_true_iff; split; apply N.leb_le; lia.
Qed.

Lemma all_digits_last_digits (k : nat) (n : N) : all_chars is_digit (last_digits k n) = true.
Proof.
  revert n; induction k as [|k IH]; intros n; simpl; [done|].
  rewrite all_chars_append, IH. simpl.
  rewrite is_digit_digit_char; [done|]. apply N.mod_lt. lia.
Qed.

Lemma decimal_value_from_append (acc : N) (a b : string) :
  decimal_value_from acc (a +:+ b) = decimal_value_from (decimal_value_from acc a) b.
Proof. revert acc; induction a as [|c a IH]; intros acc; simpl; [done | apply IH]. Qed.

(** The last [k] digits of [n] denote [n mod 10 ^ k]. *)
Lemma decimal_value_from_last_digits (k : nat) (n acc : N) :
  decimal_value_from acc (last_digits k n) = (acc * 10 ^ N.of_nat k + n mod 10 ^ N.of_nat k)%N.
Proof.
  revert n acc; induction k as [|k IH]; intros n acc.
  - simpl. rewrite N.mod_1_r. lia.
  - cbn [last_digits]. rewrite decimal_value_from_append, IH. cbn [decimal_value_from].
    unfold digit_char. rewrite N_ascii_embedding by (pose proof (N.mod_lt n 10); lia).
    rewrite Nat2N.inj_succ, N.pow_succ_r', (N.Div0.mod_mul_r n 10).
    rewrite (N.add_comm 48), N.add_sub. ring.
Qed.

Lemma decimal_value_last_digits (k : nat) (n : N) :
  decimal_value (last_digits k n) = (n mod 10 ^ N.of_nat k)%N.
Proof. unfold decimal_value. by rewrite decimal_value_from_last_digits. Qed.

Lemma N_digits_S (fuel : nat) (n : N) (acc : string) :
  N_digits (S fuel) n acc =
    if (n <? 10)%N then String (digit_char (n mod 10)) acc
    else N_digits fuel (n / 10) (String (digit_char (n mod 10)) acc).
Proof. reflexivity. Qed.

Lemma N_digits_acc (fuel : nat) (n : N) (acc : string) :
  N_digits fuel n acc = N_digits fuel n EmptyString +:+ acc.
Proof.
  revert n acc; induction fuel as [|fuel IH]; intros n acc; simpl; [done|].
  destruct (n <? 10)%N; [done|].
  rewrite IH, (IH _ (String _ EmptyString)), append_assoc. done.
Qed.

(** More fuel than digits changes nothing. *)
Lemma N_digits_fuel (fuel : nat) (n : N) (acc : string) :
  (n < 10 ^ N.of_nat fuel)%N → 0 < fuel →
  N_digits (S fuel) n acc = N_digits fuel n acc.
Proof.
  revert n acc; induction fuel as [|fuel IH]; intros n acc Hn Hf; [lia|].
  rewrite (N_digits_S (S fuel) n acc), (N_digits_S fuel n acc). destruct (n <? 10)%N eqn:E; [done|].
  apply N.ltb_ge in E.
  destruct fuel as [|fuel].
  - simpl in Hn. lia.
  - apply IH; [|lia].
    rewrite Nat2N.inj_succ, N.pow_succ_r' in Hn.
    apply N.Div0.div_lt_upper_bound. lia.
Qed.

Lemma N_digits_enough (f1 f2 : nat) (n : N) (acc : string) :
  (n < 10 ^ N.of_nat f1)%N → 0 < f1 → (f1 ≤ f2)%nat →
  N_digits f2 n acc = N_digits f1 n acc.
Proof.
  intros Hn Hf Hle. induction Hle as [|f2 Hle IH]; [done|].
  rewrite N_digits_fuel; [done| |lia].
  eapply N.lt_le_trans; [exact Hn|].
  apply N.pow_le_mono_r; lia.
Qed.

Lemma N_toString_fuel (fuel : nat) (n : N) :
  (n < 10 ^ N.of_nat fuel)%N → 0 < fuel →
  N_toString n = N_digits fuel n EmptyString.
Proof.
  intros Hn Hf. unfold N_toString.
  set (f0 := S (N.to_nat (N.log2 n))).
  assert (H0 : (n < 10 ^ N.of_nat f0)%N).
  { unfold f0. rewrite Nat2N.inj_succ, N2Nat.id.
    destruct (N.eq_dec n 0) as [->|Hz]; [done|].
    eapply N.lt_le_trans; [apply N.log2_spec; lia|].
    apply N.pow_le_mono_l. lia. }
  destruct (Nat.le_ge_cases f0 fuel).
  - apply eq_sym, N_digits_enough; [done|unfold f0; lia|done].
  - apply N_digits_enough; [done..].
Qed.

Lemma N_toString_small (n : N) :
  (n < 10)%N → N_toString n = String (digit_char n) EmptyString.
Proof.
  intros H. rewrite (N_toString_fuel 1) by (simpl; lia). simpl.
  apply N.ltb_lt in H as H'. rewrite H'. by rewrite N.mod_small.
Qed.

Lemma N_toString_step (n : N) :
  (10 ≤ n)%N →
  N_toString n = N_toString (n / 10) +:+ String (digit_char (n mod 10)) EmptyString.
Proof.
  intros H.
  set (f := S (N.to_nat (N.log2 n))).
  assert (Hn : (n < 10 ^ N.of_nat f)%N).
  { unfold f. rewrite Nat2N.inj_succ, N2Nat.id.
    eapply N.lt_le_trans; [apply N.log2_spec; lia|].
    apply N.pow_le_mono_l. lia. }
  rewrite (N_toString_fuel (S f) n).
  2:{ eapply N.lt_le_trans; [exact Hn|]. apply N.pow_le_mono_r; lia. }
  2:{ lia. }
  rewrite (N_toString_fuel f (n / 10)).
  2:{ apply N.Div0.div_lt_upper_bound.
      eapply N.lt_le_trans; [exact Hn|].
      assert (1 ≤ 10 ^ N.of_nat f)%N by (apply N.lt_pred_le, N.neq_0_lt_0, N.pow_nonzero; lia).
      lia. }
  2:{ unfold f; lia. }
  rewrite N_digits_S. apply N.ltb_ge in H. rewrite H. apply N_digits_acc.
Qed.

(** A number of more than [k] digits prints as its leading part followed
    by its last [k] digits. *)
Lemma N_toString_split (k : nat) (n : N) :
  (10 ^ N.of_nat k ≤ n)%N →
  N_toString n = N_toString (n / 10 ^ N.of_nat k) +:+ last_digits k n.
Proof.
  revert n; induction k as [|k IH]; intros n H.
  - simpl. by rewrite N.div_1_r, append_empty_r.
  - rewrite Nat2N.inj_succ, N.pow_succ_r' in H |- *.
    assert (1 ≤ 10 ^ N.of_nat k)%N by (apply N.lt_pred_le, N.neq_0_lt_0, N.pow_nonzero; lia).
    rewrite N_toString_step by lia.
    rewrite IH.
    2:{ apply N.div_le_lower_bound; lia. }
    simpl. rewrite append_assoc.
    by rewrite N.Div0.div_div.
Qed.

Lemma slice_last_N_toString (k : nat) (n : N) :
  (10 ^ N.of_nat k ≤ n)%N → slice_last k (N_toString n) = last_digits k n.
Proof.
  intros H. rewrite (N_toString_split k n) by done.
  apply (slice_last_append k), length_last_digits.
Qed.

Lemma repeat_char_snoc (c : ascii) (k : nat) :
  repeat_char c k +:+ String c EmptyString = String c (repeat_char c k).
Proof. induction k as [|k IH]; simpl; [done | by rewrite IH]. Qed.

Lemma last_digits_zero (k : nat) : last_digits k 0 = repeat_char "0" k.
Proof.
  induction k as [|k IH]; [done|].
  change (last_digits (S k) 0) with (last_digits k 0 +:+ String "0"%char EmptyString).
  by rewrite IH, repeat_char_snoc.
Qed.

(** A number below [10 ^ k] padded to [k] places is its last [k] digits. *)
Lemma padStart_N_toString (k : nat) (n : N) :
  (n < 10 ^ N.of_nat k)%N → 0 < k →
  padStart k "0" (N_toString n) = last_digits k n.
Proof.
  revert n; induction k as [|k IH]; intros n H Hk; [lia|].
  destruct (decide (n < 10)%N) as [Hs|Hl].
  - rewrite N_toString_small by done. unfold padStart. simpl.
    rewrite N.div_small, N.mod_small by done.
    by rewrite Nat.sub_0_r, last_digits_zero.
  - rewrite N_toString_step by lia.
    rewrite Nat2N.inj_succ, N.pow_succ_r' in H.
    destruct k as [|k]; [simpl in H; lia|].
    change (last_digits (S (S k)) n) with
      (last_digits (S k) (n / 10) +:+ String (digit_char (n mod 10)) EmptyString).
    rewrite <- (IH (n / 10)%N).
    + unfold padStart. rewrite length_append, append_assoc. simpl String.length.
      do 2 f_equal. lia.
    + apply N.Div0.div_lt_upper_bound. lia.
    + lia.
Qed.

(** *** Hexadecimal *)

Lemma length_toString_hex (buf : list byte) :
  String.length (toString_hex buf) = 2 * List.length buf.
Proof. induction buf as [|b buf IH]; simpl; [done | rewrite IH; lia]. Qed.

Lemma hex_digits_of_byte (b : byte) :
  let n := Byte.to_N b in
  hex_value (hex_char (n / 16)) = Some (n / 16)%N
  ∧ hex_value (hex_char (n mod 16)) = Some (n mod 16)%N
  ∧ Byte.of_N (16 * (n / 16) + n mod 16) = Some b.
Proof. destruct b; vm_compute; done. Qed.

Lemma all_hex_toString_hex (buf : list byte) :
  all_chars is_hex_digit (toString_hex buf) = true.
Proof.
  induction buf as [|b buf IH]; simpl; [done|].
  destruct (hex_digits_of_byte b) as (Hhi & Hlo & _). simpl in Hhi, Hlo.
  unfold is_hex_digit at 1 2. by rewrite Hhi, Hlo.
Qed.

(** Decoding the hexadecimal text gives the buffer back: the encoding
    loses nothing of the random bytes. *)
Lemma from_hex_toString_hex (buf : list byte) : from_hex (toString_hex buf) = Some buf.
Proof.
  induction buf as [|b buf IH]; simpl; [done|].
  destruct (hex_digits_of_byte b) as (Hhi & Hlo & Hb). simpl in Hhi, Hlo, Hb.
  rewrite Hhi, Hlo. simpl. rewrite Hb. simpl. by rewrite IH.
Qed.

(** *** URL escaping *)

Lemma hex_digit_unreserved (c : ascii) : is_hex_digit c = true → uri_unreserved c = true.
Proof. destruct c as [[] [] [] [] [] [] [] []]; vm_compute; done. Qed.

Lemma encodeURIComponent_unreserved (s : string) :
  all_chars uri_unreserved s = true → encodeURIComponent s = s.
Proof.
  induction s as [|c s IH]; simpl; [done|].
  intros [Hc Hs]%andb_true_iff. rewrite Hc. by rewrite IH.
Qed.

Lemma all_chars_impl (p q : ascii → bool) (s : string) :
  (∀ c, p c = true → q c = true) → all_chars p s = true → all_chars q s = true.
Proof.
  intros Hpq. induction s as [|c s IH]; simpl; [done|].
  intros [Hc Hs]%andb_true_iff. by rewrite (Hpq _ Hc), IH.
Qed.

(** *** Occurrences *)

Lemma contains_here (sub after : string) : contains (sub +:+ after) sub.
Proof. by exists EmptyString, after. Qed.

Lemma contains_skip (a s sub : string) : contains s sub → contains (a +:+ s) sub.
Proof.
  intros (before & after & ->). exists (a +:+ before), after.
  by rewrite append_assoc.
Qed.

Lemma contains_here3 (a b c after : string) :
  contains (a +:+ b +:+ c +:+ after) (a +:+ b +:+ c).
Proof. exists EmptyString, after. by rewrite !append_assoc. Qed.

Lemma contains_end (s : string) : contains s s.
Proof. exists EmptyString, EmptyString. by rewrite append_empty_r. Qed.

Lemma is_prefix_append (p s : string) : is_prefix p (p +:+ s) = true.
Proof.
  induction p as [|c p IH]; simpl; [done|].
  by rewrite bool_decide_eq_true_2, IH.
Qed.

Lemma includes_unfold (s sub : string) :
  includes s sub =
    is_prefix sub s || match s with EmptyString => false | String _ s' => includes s' sub end.
Proof. by destruct s. Qed.

Lemma includes_contains (s sub : string) : contains s sub → includes s sub = true.
Proof.
  intros (before & after & ->).
  induction before as [|c before IH].
  - change (EmptyString +:+ sub +:+ after) with (sub +:+ after).
    rewrite includes_unfold, is_prefix_append. done.
  - change (String c before +:+ sub +:+ after) with (String c (before +:+ sub +:+ after)).
    rewrite includes_unfold, IH. apply orb_true_r.
Qed.

(** [slice(-k)] of a number of at least [k] digits is its last [k] digits. *)
Lemma slice_last_digits (k : nat) (n : N) :
  (10 ^ N.of_nat k ≤ n)%N → slice_last (S k) (N_toString n) = last_digits (S k) n.
Proof.
  intros H. destruct (decide (10 ^ N.of_nat (S k) ≤ n)%N) as [Hl|Hs].
  - by apply slice_last_N_toString.
  - apply N.nle_gt in Hs.
    rewrite <- (padStart_N_toString (S k) n) by (done || lia).
    assert (String.length (N_toString n) = S k) as Hlen.
    { rewrite (N_toString_split k n) by done.
      rewrite length_append, length_last_digits, N_toString_small; [done|].
      rewrite Nat2N.inj_succ, N.pow_succ_r' in Hs.
      apply N.Div0.div_lt_upper_bound. lia. }
    unfold slice_last, padStart. rewrite Hlen, Nat.sub_diag. done.
Qed.

End JsFacts.

(** ** Facts about the handlers *)

Module ServerFacts.
Import Js Templates Server JsFacts.

#[local] Arguments String.append !_ _ : simpl nomatch.

Lemma bind_Ok {A B : Type} (r : result A) (k : A → result B) (b : B) :
  r ≫= k = Ok b → ∃ a, r = Ok a ∧ k a = Ok b.
Proof. destruct r as [a|e]; simpl; [eauto | done]. Qed.

Lemma bind_ok {A B : Type} (a : A) (k : A → result B) : Ok a ≫= k = k a.
Proof. reflexivity. Qed.

Lemma bind_throw {A B : Type} (e : error) (k : A → result B) : Throw e ≫= k = Throw e.
Proof. reflexivity. Qed.

Ltac step_bind := rewrite ?bind_ok, ?bind_throw; cbv beta.

(** Opens a chain of binds that is known to end in [Ok]. *)
Ltac open_binds H :=
  repeat
    (let x := fresh "x" in
     let Hx := fresh "Hx" in
     apply bind_Ok in H as (x & Hx & H)).

(** *** Identifiers *)

Lemma generateBookingNumber_digits (now : Z) (r : N) :
  (100000 ≤ now)%Z → (r < 1000)%N →
  generateBookingNumber now r =
    "TB" +:+ last_digits 6 (Z.to_N now) +:+ last_digits 3 r.
Proof.
  intros Hnow Hr. unfold generateBookingNumber.
  assert (Z_toString now = N_toString (Z.to_N now)) as -> by (destruct now; [done|done|lia]).
  rewrite (slice_last_digits 5) by (change (10 ^ N.of_nat 5)%N with 100000%N; lia).
  rewrite (padStart_N_toString 3) by (change (10 ^ N.of_nat 3)%N with 1000%N; lia).
  done.
Qed.

Lemma is_booking_number_digits (a b : N) :
  is_booking_number ("TB" +:+ last_digits 6 a +:+ last_digits 3 b) = true.
Proof.
  unfold is_booking_number.
  change ("TB" +:+ ?s) with (String "T" (String "B" s)).
  cbn [is_prefix skip String.length].
  rewrite length_append, !length_last_digits, all_chars_append, !all_digits_last_digits.
  by rewrite !bool_decide_eq_true_2.
Qed.

(** *** The booking handler *)

Section Booking.
Context (v : variant) (env : environment) (n : draws) (bookingData : obj) (w : world).

Let bookingNumber := generateBookingNumber (Date_now n) (random_floor n).
Let cancellationToken := generateCancellationToken (randomBytes n).
Let record := booking_record bookingNumber bookingData (toISOString n).
Let stored := Map_set cancellationToken record w.

(** The handler either renders both mails and hands them to [sendMail],
    or answers from its [catch]; the record is stored first in both cases. *)
Lemma book_ride_begin_cases :
  (∃ formatted customer admin,
      formattedDateTime v env bookingData = Ok formatted
      ∧ customerMailOptions v env bookingData bookingNumber formatted
          (cancellationUrl v env cancellationToken) = Ok customer
      ∧ adminMailOptions v env bookingData bookingNumber formatted = Ok admin
      ∧ book_ride_begin v env n bookingData w =
          (BookAwaiting bookingNumber, emit (SendMail admin) (emit (SendMail customer) stored)))
  ∨ (∃ e, book_ride_begin v env n bookingData w =
            (BookResponded (booking_failure v), emit (ConsoleError "Booking error:" e) stored)).
Proof.
  unfold book_ride_begin.
  fold bookingNumber cancellationToken. fold record. fold stored.
  destruct (formattedDateTime v env bookingData) as [formatted|e]; [|right; by exists e].
  step_bind.
  destruct (customerMailOptions v env bookingData bookingNumber formatted _)
    as [customer|e] eqn:Hc; [|right; by exists e].
  step_bind.
  destruct (adminMailOptions v env bookingData bookingNumber formatted)
    as [admin|e] eqn:Ha; [|right; by exists e].
  left. by exists formatted, customer, admin.
Qed.

Lemma book_ride_store (d : delivery) :
  activeBookings (snd (book_ride v env n d bookingData w)) =
    <[cancellationToken := record]> (activeBookings w).
Proof.
  unfold book_ride, book_ride_resume.
  destruct book_ride_begin_cases as [(f & c & a & _ & _ & _ & ->)|(e & ->)]; [|done].
  by destruct (Promise_all d).
Qed.

Lemma book_ride_response (d : delivery) :
  match Promise_all d with
  | Ok _ =>
      fst (book_ride v env n d bookingData w) = booking_success v bookingNumber
      ∨ fst (book_ride v env n d bookingData w) = booking_failure v
  | Throw _ => fst (book_ride v env n d bookingData w) = booking_failure v
  end.
Proof.
  unfold book_ride, book_ride_resume.
  destruct book_ride_begin_cases as [(f & c & a & _ & _ & _ & ->)|(e & ->)].
  - destruct (Promise_all d); simpl; auto.
  - destruct (Promise_all d); simpl; auto.
Qed.

Lemma book_ride_success (d : delivery) (r : response) :
  fst (book_ride v env n d bookingData w) = r → status_of r = 200 →
  r = booking_success v bookingNumber.
Proof.
  intros <- Hs. pose proof (book_ride_response d) as H.
  destruct (Promise_all d); [destruct H as [H|H]|]; rewrite H in Hs |- *; done.
Qed.

(** The trace of one booking request: the store first, then the sends. *)
Lemma book_ride_trace (d : delivery) :
  ∃ rest,
    trace (snd (book_ride v env n d bookingData w)) =
      trace w ++ StoreSet cancellationToken record :: rest
    ∧ Forall (λ ev, match ev with StoreSet _ _ | StoreDelete _ => False | _ => True end) rest.
Proof.
  unfold book_ride, book_ride_resume.
  destruct book_ride_begin_cases as [(f & c & a & _ & _ & _ & ->)|(e & ->)].
  - destruct (Promise_all d) as [[]|e]; simpl.
    + exists [SendMail c; SendMail a]. split; [by rewrite <- !app_assoc | by repeat constructor].
    + exists [SendMail c; SendMail a; ConsoleError "Booking error:" e].
      split; [by rewrite <- !app_assoc | by repeat constructor].
  - simpl. exists [ConsoleError "Booking error:" e].
    split; [by rewrite <- !app_assoc | by repeat constructor].
Qed.

End Booking.

Lemma booking_record_bookingNumber (number : string) (bookingData : obj) (timestamp : string) :
  booking_record number bookingData timestamp !! "bookingNumber" =
    Some (default (VStr number) (bookingData !! "bookingNumber")).
Proof.
  unfold booking_record, spread_onto.
  rewrite lookup_insert_ne by done.
  rewrite lookup_union.
  destruct (bookingData !! "bookingNumber") as [x|] eqn:E; simpl.
  - by rewrite lookup_singleton_eq.
  - by rewrite lookup_singleton_eq.
Qed.

Lemma booking_record_timestamp (number : string) (bookingData : obj) (timestamp : string) :
  booking_record number bookingData timestamp !! "timestamp" = Some (VStr timestamp).
Proof. unfold booking_record. apply lookup_insert_eq. Qed.

(** *** Mails in the trace *)

Lemma sent_mails_emit (ev : event) (w : world) :
  sent_mails (emit ev w) =
    sent_mails w ++ match ev with SendMail m => [m] | _ => [] end.
Proof.
  unfold sent_mails, emit. simpl. rewrite omap_app. by destruct ev.
Qed.

Lemma sent_mails_Map_set (token : string) (record : obj) (w : world) :
  sent_mails (Map_set token record w) = sent_mails w.
Proof. unfold Map_set. rewrite sent_mails_emit. apply app_nil_r. Qed.

Lemma sent_mails_Map_delete (token : string) (w : world) :
  sent_mails (Map_delete token w) = sent_mails w.
Proof. unfold Map_delete. rewrite sent_mails_emit. apply app_nil_r. Qed.

(** *** The texts of the mails *)

Ltac find_occurrence :=
  repeat first [apply contains_here3 | apply contains_here | apply contains_skip].

Lemma customer_html_date_line (v : variant)
    (number type pickup destination formatted vehicle name phone email url : string) :
  contains (customer_html v number type pickup destination formatted vehicle name phone email url)
    (customer_date_line v formatted).
Proof.
  destruct v; unfold customer_html, customer_date_line,
    customerMailOptions_html_de, customerMailOptions_html_en;
    find_occurrence.
Qed.

Lemma customer_html_url (v : variant)
    (number type pickup destination formatted vehicle name phone email url : string) :
  contains (customer_html v number type pickup destination formatted vehicle name phone email url)
    url.
Proof.
  destruct v; unfold customer_html, customerMailOptions_html_de, customerMailOptions_html_en;
    find_occurrence.
Qed.

Lemma customerMailOptions_Ok (v : variant) (env : environment) (bookingData : obj)
    (number formatted url : string) (m : mail) :
  customerMailOptions v env bookingData number formatted url = Ok m →
  to m = get bookingData "email"
  ∧ contains (html m) (customer_date_line v formatted)
  ∧ contains (html m) url.
Proof.
  unfold customerMailOptions. intros H. open_binds H.
  injection H as <-. simpl.
  split; [done|]. split; [apply customer_html_date_line | apply customer_html_url].
Qed.

(** *** The cancellation handler *)

Lemma Promise_all_Ok (d : delivery) :
  Promise_all d = Ok () ↔ customer_send d = Fulfilled ∧ admin_send d = Fulfilled.
Proof.
  unfold Promise_all. destruct (customer_send d), (admin_send d); split;
    (done || by intros []).
Qed.

Lemma cancel_ride_begin_absent (v : variant) (env : environment) (token : query_param)
    (w : world) :
  Map_get w token = None →
  cancel_ride_begin v env token w = (CancelResponded (cancel_not_found v), w).
Proof.
  intros H. unfold cancel_ride_begin, Map_has. rewrite H.
  by rewrite bool_decide_eq_false_2 by (by intros []).
Qed.

Section Cancelling.
Context (v : variant) (env : environment) (w : world) (token : string) (booking : obj).
Context (Hpresent : activeBookings w !! token = Some booking).

Lemma cancel_ride_begin_present :
  cancel_ride_begin v env (QString token) w =
    match customerCancelMailOptions v env booking, adminCancelMailOptions v env booking with
    | Ok customer, Ok admin =>
        (CancelAwaiting token booking, emit (SendMail admin) (emit (SendMail customer) w))
    | Throw e, _ | Ok _, Throw e =>
        (CancelResponded (cancel_failure v), emit (ConsoleError (cancel_error_label v) e) w)
    end.
Proof.
  unfold cancel_ride_begin, Map_has. simpl. rewrite Hpresent.
  rewrite bool_decide_eq_true_2 by done. simpl.
  destruct (customerCancelMailOptions v env booking) as [customer|e]; [|done].
  step_bind. by destruct (adminCancelMailOptions v env booking) as [admin|e].
Qed.

Lemma customerCancelMailOptions_number (m : mail) :
  customerCancelMailOptions v env booking = Ok m →
  ∃ number, ToString (get booking "bookingNumber") = Ok number.
Proof. unfold customerCancelMailOptions. intros H. open_binds H. eauto. Qed.

(** What one cancellation of a stored booking does, by the way the mails
    render and the sends settle. *)
Lemma cancel_ride_present (d : delivery) :
  match customerCancelMailOptions v env booking, adminCancelMailOptions v env booking with
  | Ok customer, Ok admin =>
      let sent := emit (SendMail admin) (emit (SendMail customer) w) in
      match Promise_all d with
      | Ok _ =>
          ∃ number, ToString (get booking "bookingNumber") = Ok number
            ∧ cancel_ride v env d (QString token) w =
                (send 200 (success_page v number), Map_delete token sent)
      | Throw e =>
          cancel_ride v env d (QString token) w =
            (cancel_failure v, emit (ConsoleError (cancel_error_label v) e) sent)
      end
  | Throw e, _ | Ok _, Throw e =>
      cancel_ride v env d (QString token) w =
        (cancel_failure v, emit (ConsoleError (cancel_error_label v) e) w)
  end.
Proof.
  unfold cancel_ride. rewrite cancel_ride_begin_present.
  destruct (customerCancelMailOptions v env booking) as [customer|e] eqn:Hc; [|done].
  destruct (adminCancelMailOptions v env booking) as [admin|e]; [|done].
  cbv zeta. unfold cancel_ride_resume.
  destruct (Promise_all d) as [[]|e]; [|done].
  destruct (customerCancelMailOptions_number customer Hc) as (number & Hn).
  exists number. by rewrite Hn.
Qed.

End Cancelling.

Lemma cancel_ride_resume_delivered (v : variant) (token : string) (booking : obj)
    (d : delivery) (w : world) (number : string) :
  Promise_all d = Ok () → ToString (get booking "bookingNumber") = Ok number →
  cancel_ride_resume v token booking d w =
    (send 200 (success_page v number), Map_delete token w).
Proof. intros Hd Hn. unfold cancel_ride_resume. by rewrite Hd, Hn. Qed.

(** A cancellation answered with 200 has removed its record. *)
Lemma cancel_ride_200_removes (v : variant) (env : environment) (d : delivery)
    (token : query_param) (w : world) :
  status_of (fst (cancel_ride v env d token w)) = 200 →
  Map_get (snd (cancel_ride v env d token w)) token = None.
Proof.
  destruct (Map_get w token) as [booking|] eqn:Hget.
  2:{ unfold cancel_ride. by rewrite cancel_ride_begin_absent. }
  destruct token as [|key|]; [done| |done]. simpl in Hget.
  pose proof (cancel_ride_present v env w key booking Hget d) as H.
  destruct (customerCancelMailOptions v env booking); [|by rewrite H].
  destruct (adminCancelMailOptions v env booking); [|by rewrite H].
  cbv zeta in H. destruct (Promise_all d); [|by rewrite H].
  destruct H as (number & _ & ->). intros _. simpl. apply lookup_delete_eq.
Qed.

(** Served one after the other, two cancellations of a stored booking end
    in one success page and one 404, with two mails sent. *)
Lemma sequential_cancellations (v : variant) (env : environment) (d1 d2 : delivery)
    (token : string) (booking : obj) (w : world) (customer admin : mail) :
  activeBookings w !! token = Some booking →
  customerCancelMailOptions v env booking = Ok customer →
  adminCancelMailOptions v env booking = Ok admin →
  Promise_all d1 = Ok () →
  let s := run_schedule v env d1 d2 [First; First; Second; Second]
             {| first := Received (QString token);
                second := Received (QString token);
                shared := w |} in
  ∃ page,
    first s = Started (CancelResponded (send 200 page))
    ∧ second s = Started (CancelResponded (cancel_not_found v))
    ∧ sent_mails (shared s) = sent_mails w ++ [customer; admin].
Proof.
  intros Hpresent Hc Ha Hd1 s.
  destruct (customerCancelMailOptions_number v env booking customer Hc) as (number & Hn).
  exists (success_page v number).
  unfold s, run_schedule. cbn [foldl turn_step first second shared cancel_step].
  rewrite (cancel_ride_begin_present v env w token booking Hpresent), Hc, Ha.
  cbn [first second shared cancel_step].
  rewrite (cancel_ride_resume_delivered v token booking d1 _ number Hd1 Hn).
  cbn [first second shared cancel_step].
  rewrite cancel_ride_begin_absent by (simpl; apply lookup_delete_eq).
  cbn [first second shared cancel_step].
  split; [done|]. split; [done|].
  rewrite sent_mails_Map_delete, !sent_mails_emit. by rewrite <- app_assoc.
Qed.

(** The answer to a cancellation depends on the store alone, not on what
    happened before. *)
Lemma cancel_ride_response_store (v : variant) (env : environment) (d : delivery)
    (token : query_param) (w1 w2 : world) :
  activeBookings w1 = activeBookings w2 →
  fst (cancel_ride v env d token w1) = fst (cancel_ride v env d token w2).
Proof.
  destruct w1 as [store1 trace1], w2 as [store2 trace2]. simpl. intros ->.
  unfold cancel_ride, cancel_ride_begin, Map_has, Map_get. simpl.
  destruct (bool_decide _); simpl; [|done].
  destruct token as [|key|]; [done| |done].
  destruct (store2 !! key) as [booking|]; [|done].
  destruct (customerCancelMailOptions v env booking); [|done].
  step_bind. destruct (adminCancelMailOptions v env booking); [|done].
  simpl. unfold cancel_ride_resume.
  destruct (Promise_all d); [|done]. by destruct (ToString _).
Qed.

(** The cancellation mails print the [bookingNumber] of the stored record,
    which may be the client's: a booking whose number cannot be printed is
    confirmed, and every cancellation of it fails and leaves it stored. *)
Example unprintable_number_blocks_cancellation :
  let booked := book_ride English Sample.env Sample.now Sample.delivered Sample.unprintable
                  Sample.empty in
  let cancelled := cancel_ride English Sample.env Sample.delivered (QString Sample.token)
                     (snd booked) in
  status_of (fst booked) = 200
  ∧ fst cancelled = send 500 "Failed to cancel booking. Please try again or contact support."
  ∧ Map_has (snd cancelled) (QString Sample.token) = true
  ∧ sent_mails (snd cancelled) = sent_mails (snd booked).
Proof. cbv zeta. repeat split; vm_compute; reflexivity. Qed.

(** *** The third revision *)

Lemma legacy_book_ride_500 (user : option string) (admin_send customer_send : settled)
    (body : obj) (r : response) :
  fst (Legacy.book_ride user admin_send customer_send body) = Legacy.Responded r →
  status_of r = 500 →
  ∃ cause,
    (admin_send = Rejected cause ∨ admin_send = Fulfilled ∧ customer_send = Rejected cause)
    ∧ r = Legacy.booking_failure cause.
Proof.
  unfold Legacy.book_ride.
  destruct (Legacy.adminMailOptions user body) as [admin|e]; [|done].
  step_bind. destruct (Legacy.customerMailOptions user body) as [customer|e]; [|done].
  step_bind. destruct admin_send as [|cause]; [destruct customer_send as [|cause]|]; simpl.
  - by intros [= <-].
  - intros [= <-] _. exists cause. auto.
  - intros [= <-] _. exists cause. auto.
Qed.

End ServerFacts.

(** ** The properties of the specification *)

Module Specification.
Import Js Templates Server JsFacts ServerFacts.

(** C1, as the specification words it, fails at its own scenario: with
    [type] the word [scheduled] the display is the immediate phrase, and
    the customer mail shows that phrase and not the formatted date. *)
Lemma scheduled_word_is_not_formatted :
  get Sample.scheduled "type" = VStr "scheduled"
  ∧ get Sample.scheduled "dateTime" = VStr "2025-03-01T10:00:00Z"
  ∧ toLocaleString Sample.env (VStr "2025-03-01T10:00:00Z") = "Saturday, March 1, 2025 at 10:00 AM"
  ∧ (∀ env, formattedDateTime English env Sample.scheduled = Ok "As soon as possible")
  ∧ (∀ env, formattedDateTime German env Sample.scheduled = Ok "Sofort")
  ∧ ∃ customer admin,
      sent_mails (snd (book_ride English Sample.env Sample.now Sample.delivered Sample.scheduled
                         Sample.empty)) = [customer; admin]
      ∧ to customer = VStr "ada@example.com"
      ∧ includes (html customer) "Saturday, March 1, 2025" = false
      ∧ includes (html customer) "<li><strong>Date/Time:</strong> As soon as possible</li>" = true.
Proof.
  do 3 (split; [by vm_compute|]).
  do 2 (split; [intros env; by vm_compute|]).
  eexists _, _. split; [vm_compute; reflexivity|].
  split; [reflexivity|]. split; by vm_compute.
Qed.

(** C1, as amended.  The display is the date as the host's locale prints
    it exactly when [type] is the label of the revision, [Scheduled Ride]
    or [Geplante Fahrt], and [dateTime] is not [As soon as possible]; in
    every other case, [type] the word [scheduled] among them, it is the
    immediate phrase.  When the handler gets as far as sending, the
    customer mail goes to the [email] of the request and shows the display
    in its date line. *)
Theorem requested_time_display (v : variant) (env : environment) (n : draws)
    (bookingData : obj) (w : world) :
  let type := get bookingData "type" in
  let dateTime := get bookingData "dateTime" in
  (type = VStr (scheduled_label v) → dateTime ≠ VStr "As soon as possible" →
     formattedDateTime v env bookingData = p ← ToPrimitive dateTime; Ok (toLocaleString env p))
  ∧ (type ≠ VStr (scheduled_label v) ∨ dateTime = VStr "As soon as possible" →
     formattedDateTime v env bookingData = Ok (immediate_phrase v))
  ∧ (type = VStr "scheduled" → formattedDateTime v env bookingData = Ok (immediate_phrase v))
  ∧ ∀ number w', book_ride_begin v env n bookingData w = (BookAwaiting number, w') →
      ∃ formatted customer admin,
        formattedDateTime v env bookingData = Ok formatted
        ∧ sent_mails w' = sent_mails w ++ [customer; admin]
        ∧ to customer = get bookingData "email"
        ∧ contains (html customer) (customer_date_line v formatted).
Proof.
  intros type dateTime.
  assert (∀ lit, strict_equals_string type lit = true ↔ type = VStr lit) as Heq.
  { intros lit. unfold strict_equals_string. destruct type; try (split; done).
    rewrite bool_decide_eq_true. split; congruence. }
  assert (type ≠ VStr (scheduled_label v) ∨ dateTime = VStr "As soon as possible" →
          formattedDateTime v env bookingData = Ok (immediate_phrase v)) as Himmediate.
  { unfold formattedDateTime. fold type dateTime. intros [Hty|Hdt].
    - destruct (strict_equals_string type (scheduled_label v)) eqn:E; [|done].
      by apply Heq in E.
    - rewrite Hdt. simpl. by rewrite andb_false_r. }
  split; [|split; [exact Himmediate|split]].
  - intros Hty Hdt. unfold formattedDateTime. fold type dateTime.
    apply Heq in Hty. rewrite Hty. simpl.
    destruct (strict_equals_string dateTime "As soon as possible") eqn:E; [|done].
    exfalso. apply Hdt. unfold strict_equals_string in E.
    destruct dateTime; try done. by apply bool_decide_eq_true in E as ->.
  - intros Hty. apply Himmediate. left. rewrite Hty. by destruct v.
  - intros number w' Hbegin.
    destruct (book_ride_begin_cases v env n bookingData w)
      as [(f & c & a & Hf & Hc & _ & Hcase)|(e & Hcase)]; rewrite Hcase in Hbegin; [|done].
    injection Hbegin as _ <-.
    apply customerMailOptions_Ok in Hc as (Hto & Hline & _).
    exists f, c, a. split; [done|]. split; [|done].
    rewrite !sent_mails_emit, sent_mails_Map_set. by rewrite <- app_assoc.
Qed.

(** The English revision on the sample request labelled [Scheduled Ride]. *)
Lemma requested_time_display_witness :
  get Sample.scheduled_ride "type" = VStr "Scheduled Ride"
  ∧ formattedDateTime English Sample.env Sample.scheduled_ride =
      Ok "Saturday, March 1, 2025 at 10:00 AM"
  ∧ ∃ customer admin,
      sent_mails (snd (book_ride_begin English Sample.env Sample.now Sample.scheduled_ride
                         Sample.empty)) = [customer; admin]
      ∧ to customer = VStr "ada@example.com"
      ∧ contains (html customer)
          "          <li><strong>Date/Time:</strong> Saturday, March 1, 2025 at 10:00 AM</li>"
      ∧ includes (html customer) "2025-03-01T10:00:00Z" = false.
Proof.
  destruct (requested_time_display English Sample.env Sample.now Sample.scheduled_ride
              Sample.empty) as (Hformat & _ & _ & Hmail).
  assert (get Sample.scheduled_ride "type" = VStr "Scheduled Ride") as Htype by (by vm_compute).
  assert (get Sample.scheduled_ride "dateTime" ≠ VStr "As soon as possible") as Hdate
    by (by vm_compute).
  specialize (Hformat Htype Hdate).
  assert (formattedDateTime English Sample.env Sample.scheduled_ride =
            Ok "Saturday, March 1, 2025 at 10:00 AM") as Hshown
    by (rewrite Hformat; by vm_compute).
  split; [exact Htype|]. split; [exact Hshown|].
  destruct (Hmail (generateBookingNumber (Date_now Sample.now) (random_floor Sample.now))
              (snd (book_ride_begin English Sample.env Sample.now Sample.scheduled_ride
                      Sample.empty)))
    as (formatted & customer & admin & Hf & Hsent & Hto & Hline); [by vm_compute|].
  rewrite Hshown in Hf. injection Hf as <-.
  assert (sent_mails (snd (book_ride_begin English Sample.env Sample.now Sample.scheduled_ride
                             Sample.empty)) = [customer; admin]) as Hsent' by exact Hsent.
  exists customer, admin. split; [exact Hsent'|]. split; [rewrite Hto; by vm_compute|].
  split; [exact Hline|].
  vm_compute in Hsent'. injection Hsent' as <- _. by vm_compute.
Defined.

(** C2. For a token in the store, the record is gone after the request
    only if both sends were fulfilled, and then the delete is the last
    event, after the two calls of [sendMail].  When a send is rejected the
    answer is the fixed 500 text and the store is what it was, so that a
    second request with the same token is answered as the first would have
    been. *)
Theorem cancel_deletes_after_delivery (v : variant) (env : environment) (d : delivery)
    (token : string) (booking : obj) (w : world) :
  activeBookings w !! token = Some booking →
  let after := cancel_ride v env d (QString token) w in
  (activeBookings (snd after) !! token = None →
     customer_send d = Fulfilled ∧ admin_send d = Fulfilled
     ∧ ∃ customer admin,
         trace (snd after) = trace w ++ [SendMail customer; SendMail admin; StoreDelete token])
  ∧ (∀ e, Promise_all d = Throw e →
       fst after = send 500 (cancel_failed v)
       ∧ activeBookings (snd after) = activeBookings w
       ∧ activeBookings (snd after) !! token = Some booking
       ∧ ∀ d', fst (cancel_ride v env d' (QString token) (snd after)) =
               fst (cancel_ride v env d' (QString token) w)).
Proof.
  intros Hpresent after. unfold after.
  pose proof (cancel_ride_present v env w token booking Hpresent d) as H.
  destruct (customerCancelMailOptions v env booking) as [customer|ec].
  2:{ rewrite H. simpl. split; [by rewrite Hpresent|].
      intros e _. repeat split; try done. intros d'. by apply cancel_ride_response_store. }
  destruct (adminCancelMailOptions v env booking) as [admin|ea].
  2:{ rewrite H. simpl. split; [by rewrite Hpresent|].
      intros e _. repeat split; try done. intros d'. by apply cancel_ride_response_store. }
  cbv zeta in H. destruct (Promise_all d) as [[]|e0] eqn:Hd.
  - destruct H as (number & _ & ->). simpl. split; [|done].
    intros _. apply Promise_all_Ok in Hd as [Hc Ha].
    split; [done|]. split; [done|]. exists customer, admin. by rewrite <- !app_assoc.
  - rewrite H. simpl. split; [by rewrite Hpresent|].
    intros e _. repeat split; try done. intros d'. by apply cancel_ride_response_store.
Qed.

(** A cancellation of the sample booking whose customer mail is rejected,
    and its retry. *)
Lemma cancel_deletes_after_delivery_witness :
  let failed := cancel_ride English Sample.env Sample.undelivered (QString Sample.token)
                  Sample.booked in
  is_Some (activeBookings Sample.booked !! Sample.token)
  ∧ fst failed = send 500 "Failed to cancel booking. Please try again or contact support."
  ∧ activeBookings (snd failed) = activeBookings Sample.booked
  ∧ status_of (fst (cancel_ride English Sample.env Sample.delivered (QString Sample.token)
                      (snd failed))) = 200.
Proof.
  assert (activeBookings Sample.booked !! Sample.token =
            Some (booking_record
                    (generateBookingNumber (Date_now Sample.now) (random_floor Sample.now))
                    Sample.scheduled_ride (toISOString Sample.now)))
    as Hpresent by (unfold Sample.booked; rewrite book_ride_store; apply lookup_insert_eq).
  destruct (cancel_deletes_after_delivery English Sample.env Sample.undelivered Sample.token _
              Sample.booked Hpresent) as [_ Hfail].
  destruct (Hfail Sample.bad_login eq_refl) as (Hresp & Hstore & _ & Hretry).
  cbv zeta. split; [by rewrite Hpresent|]. split; [exact Hresp|]. split; [exact Hstore|].
  rewrite Hretry. by vm_compute.
Defined.

(** C3. The booking handler stores the record under the cancellation
    token, with the server's own timestamp, before it calls [sendMail]: the
    store event is the first event of the request and the only one that
    touches the map.  When a send is rejected the answer is the fixed 500
    body with [success: false], and the record is still in the store. *)
Theorem booking_persisted_before_sending (v : variant) (env : environment) (n : draws)
    (d : delivery) (bookingData : obj) (w : world) (e : error) :
  Promise_all d = Throw e →
  let token := generateCancellationToken (randomBytes n) in
  let record :=
    booking_record (generateBookingNumber (Date_now n) (random_floor n)) bookingData
      (toISOString n) in
  let after := book_ride v env n d bookingData w in
  fst after = json 500 [("success", VBool false); ("error", VStr (booking_failed v))]
  ∧ activeBookings (snd after) !! token = Some record
  ∧ record !! "timestamp" = Some (VStr (toISOString n))
  ∧ ∃ rest,
      trace (snd after) = trace w ++ StoreSet token record :: rest
      ∧ Forall (λ ev, match ev with StoreSet _ _ | StoreDelete _ => False | _ => True end) rest.
Proof.
  intros Hd token record after. unfold after.
  split.
  { pose proof (book_ride_response v env n bookingData w d) as H. by rewrite Hd in H. }
  split.
  { rewrite book_ride_store. apply lookup_insert_eq. }
  split; [apply booking_record_timestamp|].
  apply book_ride_trace.
Qed.

(** The sample booking with the customer mail rejected. *)
Lemma booking_persisted_before_sending_witness :
  let after := book_ride English Sample.env Sample.now Sample.undelivered Sample.scheduled_ride
                 Sample.empty in
  status_of (fst after) = 500
  ∧ is_Some (activeBookings (snd after) !! Sample.token)
  ∧ ∃ rest, trace (snd after) =
              StoreSet Sample.token
                (booking_record "TB200123007" Sample.scheduled_ride "2025-03-01T10:00:00.123Z")
              :: rest.
Proof.
  assert (Promise_all Sample.undelivered = Throw Sample.bad_login) as Hd by reflexivity.
  destruct (booking_persisted_before_sending English Sample.env Sample.now Sample.undelivered
              Sample.scheduled_ride Sample.empty Sample.bad_login Hd)
    as (Hresp & Hstore & _ & rest & Htrace & _).
  cbv zeta. split; [by rewrite Hresp|].
  split; [unfold Sample.token; by rewrite Hstore|].
  exists rest. exact Htrace.
Defined.

(** C4. A token that is not a key of the store, a missing or a nested
    [token] parameter among them, is answered with 404 and the fixed text;
    the store and the trace stay as they were, so no mail is sent, and a
    repeated request gets the very same answer. *)
Theorem cancel_unknown_token (v : variant) (env : environment) (d d' : delivery)
    (token : query_param) (w : world) :
  Map_get w token = None →
  cancel_ride v env d token w = (send 404 (not_found v), w)
  ∧ sent_mails (snd (cancel_ride v env d token w)) = sent_mails w
  ∧ cancel_ride v env d' token (snd (cancel_ride v env d token w)) = (send 404 (not_found v), w)
  ∧ ∀ w0 d0, status_of (fst (cancel_ride v env d0 token w0)) = 200 →
      fst (cancel_ride v env d token (snd (cancel_ride v env d0 token w0))) =
      fst (cancel_ride v env d token w).
Proof.
  intros Habsent.
  assert (∀ d0 w0, Map_get w0 token = None →
                   cancel_ride v env d0 token w0 = (send 404 (not_found v), w0)) as H.
  { intros d0 w0 H0. unfold cancel_ride. by rewrite cancel_ride_begin_absent. }
  rewrite (H d w Habsent). simpl. rewrite (H d' w Habsent).
  split; [done|]. split; [done|]. split; [done|].
  intros w0 d0 Hok. by rewrite (H d _ (cancel_ride_200_removes v env d0 token w0 Hok)).
Qed.

(** A missing [token] parameter and a token that was never issued. *)
Lemma cancel_unknown_token_witness :
  cancel_ride English Sample.env Sample.delivered QMissing Sample.booked =
    (send 404 "Booking not found or already cancelled.", Sample.booked)
  ∧ cancel_ride English Sample.env Sample.delivered (QString "never-issued") Sample.booked =
      (send 404 "Booking not found or already cancelled.", Sample.booked).
Proof.
  split.
  - exact (proj1 (cancel_unknown_token English Sample.env Sample.delivered Sample.delivered
                    QMissing Sample.booked eq_refl)).
  - assert (Map_get Sample.booked (QString "never-issued") = None) as H by (by vm_compute).
    exact (proj1 (cancel_unknown_token English Sample.env Sample.delivered Sample.delivered
                    (QString "never-issued") Sample.booked H)).
Defined.

(** C5. After a booking answered with 200, the customer mail holds the
    cancellation link with the token and the store holds the record; a
    cancellation with that token answered with 200 removes the record, and
    one more cancellation with the same token is answered with 404. *)
Theorem book_then_cancel (v : variant) (env : environment) (n : draws)
    (d1 d2 d3 : delivery) (bookingData : obj) (w : world) :
  let token := generateCancellationToken (randomBytes n) in
  let booked := book_ride v env n d1 bookingData w in
  let cancelled := cancel_ride v env d2 (QString token) (snd booked) in
  status_of (fst booked) = 200 → status_of (fst cancelled) = 200 →
  (∃ customer, customer ∈ sent_mails (snd booked)
     ∧ contains (html customer) (cancellationUrl v env token))
  ∧ Map_has (snd booked) (QString token) = true
  ∧ Map_has (snd cancelled) (QString token) = false
  ∧ cancel_ride v env d3 (QString token) (snd cancelled) =
      (send 404 (not_found v), snd cancelled).
Proof.
  intros token booked cancelled Hbooked Hcancelled.
  assert (activeBookings (snd booked) !! token
          = Some (booking_record (generateBookingNumber (Date_now n) (random_floor n))
                    bookingData (toISOString n))) as Hpresent.
  { unfold booked. rewrite book_ride_store. apply lookup_insert_eq. }
  assert (activeBookings (snd cancelled) !! token = None) as Hgone
    by apply (cancel_ride_200_removes v env d2 (QString token) (snd booked) Hcancelled).
  split.
  { unfold booked in *. unfold book_ride in *.
    destruct (book_ride_begin_cases v env n bookingData w)
      as [(f & c & a & _ & Hc & _ & Hbegin)|(e & Hbegin)]; rewrite Hbegin in *; [|done].
    exists c. split.
    - unfold book_ride_resume. destruct (Promise_all d1); simpl;
        rewrite !sent_mails_emit; set_solver.
    - by apply customerMailOptions_Ok in Hc as (_ & _ & Hurl). }
  split; [unfold Map_has; simpl; by rewrite Hpresent, bool_decide_eq_true_2|].
  split; [unfold Map_has; simpl; rewrite Hgone; by apply bool_decide_eq_false_2; intros []|].
  unfold cancel_ride. by rewrite cancel_ride_begin_absent.
Qed.

(** The sample booking, its cancellation, and the cancellation once more. *)
Lemma book_then_cancel_witness :
  let booked := book_ride English Sample.env Sample.now Sample.delivered Sample.scheduled_ride
                  Sample.empty in
  let cancelled := cancel_ride English Sample.env Sample.delivered (QString Sample.token)
                     (snd booked) in
  status_of (fst booked) = 200 ∧ status_of (fst cancelled) = 200
  ∧ Map_has (snd cancelled) (QString Sample.token) = false
  ∧ fst (cancel_ride English Sample.env Sample.delivered (QString Sample.token) (snd cancelled)) =
      send 404 "Booking not found or already cancelled.".
Proof.
  cbv zeta.
  assert (status_of (fst (book_ride English Sample.env Sample.now Sample.delivered
                            Sample.scheduled_ride Sample.empty)) = 200) as H1 by (by vm_compute).
  assert (status_of (fst (cancel_ride English Sample.env Sample.delivered (QString Sample.token)
                            (snd (book_ride English Sample.env Sample.now Sample.delivered
                                    Sample.scheduled_ride Sample.empty)))) = 200) as H2
    by (by vm_compute).
  destruct (book_then_cancel English Sample.env Sample.now Sample.delivered Sample.delivered
              Sample.delivered Sample.scheduled_ride Sample.empty H1 H2)
    as (_ & _ & Hgone & Hagain).
  split; [exact H1|]. split; [exact H2|]. split; [exact Hgone|].
  unfold Sample.token. by rewrite Hagain.
Defined.

(** C6. The check of the store and the delete are separated by the
    [await] of the two sends.  When a second request for the same stored
    token is served while the first one waits, both find the record, both
    send their two mails and both are answered with the success page. *)
Theorem concurrent_cancellations_both_succeed (v : variant) (env : environment)
    (d1 d2 : delivery) (token : string) (booking : obj) (w : world) (customer admin : mail) :
  activeBookings w !! token = Some booking →
  customerCancelMailOptions v env booking = Ok customer →
  adminCancelMailOptions v env booking = Ok admin →
  Promise_all d1 = Ok () → Promise_all d2 = Ok () →
  let s := run_schedule v env d1 d2 [First; Second; First; Second]
             {| first := Received (QString token);
                second := Received (QString token);
                shared := w |} in
  ∃ page,
    first s = Started (CancelResponded (send 200 page))
    ∧ second s = Started (CancelResponded (send 200 page))
    ∧ sent_mails (shared s) = sent_mails w ++ [customer; admin; customer; admin]
    ∧ activeBookings (shared s) !! token = None.
Proof.
  intros Hpresent Hc Ha Hd1 Hd2 s.
  destruct (customerCancelMailOptions_number v env booking customer Hc) as (number & Hn).
  exists (success_page v number).
  unfold s, run_schedule. cbn [foldl turn_step first second shared cancel_step].
  rewrite (cancel_ride_begin_present v env w token booking Hpresent), Hc, Ha.
  cbn [first second shared cancel_step].
  rewrite (cancel_ride_begin_present v env
             (emit (SendMail admin) (emit (SendMail customer) w)) token booking Hpresent), Hc, Ha.
  cbn [first second shared cancel_step].
  rewrite (cancel_ride_resume_delivered v token booking d1 _ number Hd1 Hn).
  cbn [first second shared cancel_step].
  rewrite (cancel_ride_resume_delivered v token booking d2 _ number Hd2 Hn).
  cbn [first second shared].
  split; [done|]. split; [done|]. split.
  - rewrite !sent_mails_Map_delete, !sent_mails_emit. by rewrite <- !app_assoc.
  - simpl. apply lookup_delete_eq.
Qed.

(** Two overlapping cancellations of the sample booking: six mails in the
    trace, two of the booking and four of the cancellations. *)
Lemma concurrent_cancellations_both_succeed_witness :
  let s := run_schedule English Sample.env Sample.delivered Sample.delivered
             [First; Second; First; Second]
             {| first := Received (QString Sample.token);
                second := Received (QString Sample.token);
                shared := Sample.booked |} in
  is_Some (activeBookings Sample.booked !! Sample.token)
  ∧ ∃ page,
      first s = Started (CancelResponded (send 200 page))
      ∧ second s = Started (CancelResponded (send 200 page))
      ∧ List.length (sent_mails (shared s)) = 6.
Proof.
  assert (activeBookings Sample.booked !! Sample.token =
            Some (booking_record
                    (generateBookingNumber (Date_now Sample.now) (random_floor Sample.now))
                    Sample.scheduled_ride (toISOString Sample.now)))
    as Hpresent by (unfold Sample.booked; rewrite book_ride_store; apply lookup_insert_eq).
  destruct (customerCancelMailOptions English Sample.env
              (booking_record
                 (generateBookingNumber (Date_now Sample.now) (random_floor Sample.now))
                 Sample.scheduled_ride (toISOString Sample.now))) as [customer|] eqn:Hc;
    [|by vm_compute in Hc].
  destruct (adminCancelMailOptions English Sample.env
              (booking_record
                 (generateBookingNumber (Date_now Sample.now) (random_floor Sample.now))
                 Sample.scheduled_ride (toISOString Sample.now))) as [admin|] eqn:Ha;
    [|by vm_compute in Ha].
  destruct (concurrent_cancellations_both_succeed English Sample.env Sample.delivered
              Sample.delivered Sample.token _ Sample.booked customer admin
              Hpresent Hc Ha eq_refl eq_refl) as (page & H1 & H2 & Hmails & _).
  cbv zeta. split; [by rewrite Hpresent|].
  exists page. split; [exact H1|]. split; [exact H2|].
  rewrite Hmails. by rewrite length_app.
Defined.

(** C7. A cancellation token made from the 32 bytes of
    [crypto.randomBytes(32)] is a text of 64 lower-case hexadecimal digits,
    [encodeURIComponent] leaves it unchanged, and decoding it gives the 32
    bytes back, so that it carries all of their randomness. *)
Theorem generateCancellationToken_shape (bytes : list byte) :
  List.length bytes = 32 →
  let token := generateCancellationToken bytes in
  String.length token = 64
  ∧ all_chars is_hex_digit token = true
  ∧ encodeURIComponent token = token
  ∧ from_hex token = Some bytes.
Proof.
  intros Hlen token. unfold token, generateCancellationToken.
  split; [by rewrite length_toString_hex, Hlen|].
  split; [apply all_hex_toString_hex|].
  split; [|apply from_hex_toString_hex].
  apply encodeURIComponent_unreserved.
  eapply all_chars_impl; [apply hex_digit_unreserved | apply all_hex_toString_hex].
Qed.

(** The token of the sample request. *)
Lemma generateCancellationToken_shape_witness :
  List.length (randomBytes Sample.now) = 32
  ∧ String.length Sample.token = 64
  ∧ encodeURIComponent Sample.token = Sample.token
  ∧ from_hex Sample.token = Some (randomBytes Sample.now).
Proof.
  assert (List.length (randomBytes Sample.now) = 32) as Hlen by reflexivity.
  destruct (generateCancellationToken_shape (randomBytes Sample.now) Hlen)
    as (H64 & _ & Huri & Hback).
  exact (conj Hlen (conj H64 (conj Huri Hback))).
Defined.

(** C8. Once the clock is past the first 100 seconds of the epoch and the
    random draw is below 1000, a booking number is [TB], six decimal digits
    that denote [Date.now()] modulo a million (its last six digits) and
    three decimal digits that denote the draw (leading zeros included); it
    has the shape [TB] plus nine digits, and a booking answered with
    status 200 carries exactly this number. *)
Theorem generateBookingNumber_structure (v : variant) (env : environment) (n : draws)
    (d : delivery) (bookingData : obj) (w : world) :
  (100000 ≤ Date_now n)%Z → (random_floor n < 1000)%N →
  let number := generateBookingNumber (Date_now n) (random_floor n) in
  (∃ timestamp random,
     number = "TB" +:+ timestamp +:+ random
     ∧ String.length timestamp = 6 ∧ all_chars is_digit timestamp = true
     ∧ decimal_value timestamp = (Z.to_N (Date_now n) mod 1000000)%N
     ∧ String.length random = 3 ∧ all_chars is_digit random = true
     ∧ decimal_value random = random_floor n)
  ∧ is_booking_number number = true
  ∧ ∀ r, fst (book_ride v env n d bookingData w) = r → status_of r = 200 →
      r = json 200 [("success", VBool true);
                    ("message", VStr (booking_confirmed v));
                    ("bookingNumber", VStr number)].
Proof.
  intros Hnow Hdraw number.
  assert (number = "TB" +:+ last_digits 6 (Z.to_N (Date_now n))
                     +:+ last_digits 3 (random_floor n)) as Hnum
    by (by apply generateBookingNumber_digits).
  split; [|split].
  - exists (last_digits 6 (Z.to_N (Date_now n))), (last_digits 3 (random_floor n)).
    rewrite !length_last_digits, !all_digits_last_digits, !decimal_value_last_digits.
    repeat split; try done.
    change (10 ^ N.of_nat 3)%N with 1000%N. by apply N.mod_small.
  - rewrite Hnum. apply is_booking_number_digits.
  - intros r Hr Hs. by apply (book_ride_success v env n bookingData w d).
Qed.

(** The sample request: clock [1740823200123], draw [7]. *)
Lemma generateBookingNumber_structure_witness :
  generateBookingNumber (Date_now Sample.now) (random_floor Sample.now) = "TB200123007"
  ∧ fst (book_ride English Sample.env Sample.now Sample.delivered Sample.scheduled_ride
           Sample.empty) =
      json 200 [("success", VBool true);
                ("message", VStr "Booking confirmed! Check your email (spam folder) for details.");
                ("bookingNumber", VStr "TB200123007")].
Proof.
  assert (100000 ≤ Date_now Sample.now)%Z as Hnow by (by vm_compute).
  assert (random_floor Sample.now < 1000)%N as Hdraw by (by vm_compute).
  destruct (generateBookingNumber_structure English Sample.env Sample.now Sample.delivered
              Sample.scheduled_ride Sample.empty Hnow Hdraw) as (_ & _ & Hresp).
  split; [by vm_compute|].
  apply Hresp; [reflexivity | by vm_compute].
Defined.

(** C9, as the specification words it, fails on the third revision: the
    500 body carries [error.message], so two rejections with different
    messages give two different bodies. *)
Lemma legacy_failure_body_shows_the_error :
  fst (Legacy.book_ride (Some "taxi@example.com") (Rejected Sample.bad_login) Fulfilled
         Sample.scheduled_ride) =
    Legacy.Responded
      (json 500 [("message", VStr "Failed to process booking. Please try again.");
                 ("error", VStr "Invalid login: 535-5.7.8 Username and Password not accepted.")])
  ∧ fst (Legacy.book_ride (Some "taxi@example.com") (Rejected Sample.timed_out) Fulfilled
           Sample.scheduled_ride) =
      Legacy.Responded
        (json 500 [("message", VStr "Failed to process booking. Please try again.");
                   ("error", VStr "connect ETIMEDOUT 142.250.27.108:465")]).
Proof. split; by vm_compute. Qed.

(** C9, as amended.  In the two revisions with a store, a rejected send is
    answered with one fixed body, the same for every error.  In the third
    revision every 500 body holds the fixed text and, under [error], the
    message of the rejection that caused it. *)
Theorem booking_failure_body (v : variant) (env : environment) (n : draws) (d d' : delivery)
    (bookingData : obj) (w : world) (e e' : error) :
  Promise_all d = Throw e → Promise_all d' = Throw e' →
  fst (book_ride v env n d bookingData w) =
    json 500 [("success", VBool false); ("error", VStr (booking_failed v))]
  ∧ fst (book_ride v env n d' bookingData w) = fst (book_ride v env n d bookingData w)
  ∧ ∀ user admin_send customer_send r,
      fst (Legacy.book_ride user admin_send customer_send bookingData) = Legacy.Responded r →
      status_of r = 500 →
      ∃ cause,
        (admin_send = Rejected cause ∨ admin_send = Fulfilled ∧ customer_send = Rejected cause)
        ∧ r = json 500 [("message", VStr "Failed to process booking. Please try again.");
                        ("error", VStr (message cause))].
Proof.
  intros Hd Hd'.
  pose proof (book_ride_response v env n bookingData w d) as H. rewrite Hd in H.
  pose proof (book_ride_response v env n bookingData w d') as H'. rewrite Hd' in H'.
  split; [exact H|]. split; [by rewrite H, H'|].
  intros user admin_send customer_send r. apply legacy_book_ride_500.
Qed.

(** Two different rejections of the customer mail, one body. *)
Lemma booking_failure_body_witness :
  let failed (e : error) :=
    {| customer_send := Rejected e; admin_send := Fulfilled; admin_settles_first := false |} in
  fst (book_ride English Sample.env Sample.now (failed Sample.bad_login) Sample.scheduled_ride
         Sample.empty) =
    json 500 [("success", VBool false);
              ("error", VStr "Failed to process booking. Please try again.")]
  ∧ fst (book_ride English Sample.env Sample.now (failed Sample.timed_out) Sample.scheduled_ride
           Sample.empty) =
      fst (book_ride English Sample.env Sample.now (failed Sample.bad_login)
             Sample.scheduled_ride Sample.empty).
Proof.
  cbv zeta.
  destruct (booking_failure_body English Sample.env Sample.now
              {| customer_send := Rejected Sample.bad_login; admin_send := Fulfilled;
                 admin_settles_first := false |}
              {| customer_send := Rejected Sample.timed_out; admin_send := Fulfilled;
                 admin_settles_first := false |}
              Sample.scheduled_ride Sample.empty Sample.bad_login Sample.timed_out
              eq_refl eq_refl) as (Hbody & Hsame & _).
  split; [exact Hbody | exact Hsame].
Defined.

(** C10. When the request body has its own [bookingNumber] property, the
    stored record holds the client's value, while a 200 answer carries the
    number the server generated; the [timestamp] of the record is the
    server's whatever the body holds. *)
Theorem client_bookingNumber_overrides (v : variant) (env : environment) (n : draws)
    (d : delivery) (bookingData : obj) (w : world) (supplied : value) :
  bookingData !! "bookingNumber" = Some supplied →
  let number := generateBookingNumber (Date_now n) (random_floor n) in
  let token := generateCancellationToken (randomBytes n) in
  let after := book_ride v env n d bookingData w in
  ∃ record,
    activeBookings (snd after) !! token = Some record
    ∧ record !! "bookingNumber" = Some supplied
    ∧ record !! "timestamp" = Some (VStr (toISOString n))
    ∧ ∀ r, fst after = r → status_of r = 200 →
        r = json 200 [("success", VBool true);
                      ("message", VStr (booking_confirmed v));
                      ("bookingNumber", VStr number)].
Proof.
  intros Hsup number token after.
  exists (booking_record number bookingData (toISOString n)).
  split; [unfold after; rewrite book_ride_store; apply lookup_insert_eq|].
  split; [by rewrite booking_record_bookingNumber, Hsup|].
  split; [apply booking_record_timestamp|].
  intros r Hr Hs. by apply (book_ride_success v env n bookingData w d).
Qed.

(** The sample request that brings its own [bookingNumber] and [timestamp]. *)
Lemma client_bookingNumber_overrides_witness :
  let after := book_ride English Sample.env Sample.now Sample.delivered Sample.forged
                 Sample.empty in
  Sample.forged !! "timestamp" = Some (VStr "1999-01-01T00:00:00.000Z")
  ∧ ∃ record,
      activeBookings (snd after) !! Sample.token = Some record
      ∧ record !! "bookingNumber" = Some (VStr "TB000000000")
      ∧ record !! "timestamp" = Some (VStr "2025-03-01T10:00:00.123Z")
      ∧ fst after =
          json 200 [("success", VBool true);
                    ("message", VStr "Booking confirmed! Check your email (spam folder) for details.");
                    ("bookingNumber", VStr "TB200123007")].
Proof.
  assert (Sample.forged !! "bookingNumber" = Some (VStr "TB000000000")) as Hsup
    by (by vm_compute).
  destruct (client_bookingNumber_overrides English Sample.env Sample.now Sample.delivered
              Sample.forged Sample.empty (VStr "TB000000000") Hsup)
    as (record & Hstore & Hnum & Htime & Hresp).
  cbv zeta. split; [by vm_compute|].
  exists record. split; [exact Hstore|]. split; [exact Hnum|]. split; [exact Htime|].
  apply Hresp; [reflexivity | by vm_compute].
Defined.

End Specification.

(** ** Further properties of the handlers *)

Module Coverage.
Import Js Templates Server Setup Runs JsFacts ServerFacts.

#[local] Arguments String.append !_ _ : simpl nomatch.

(** *** What prints *)

Lemma prints_primitive (v : value) :
  match v with VArr _ | VObj _ => False | _ => True end → prints v = true.
Proof. unfold prints. destruct v as [| |[]| | | |]; done. Qed.

Lemma prints_Ok (v : value) : prints v = true → ∃ s, ToString v = Ok s.
Proof. unfold prints. destruct (ToString v); [eauto | done]. Qed.

Lemma prints_Throw (v : value) : prints v = false → ∃ e, ToString v = Throw e.
Proof. unfold prints. destruct (ToString v); [done | eauto]. Qed.

(** Splits on the fields a mail prints, in the order of the template. *)
Ltac print_fields o :=
  repeat match goal with
         | |- context [ToString (get o ?k)] =>
             let E := fresh "E" in
             destruct (ToString (get o k)) eqn:E; step_bind
         end.

Ltac is_listed := repeat first [apply list_elem_of_here | apply list_elem_of_further].

Ltac one_of_the_fields Hk Hp :=
  unfold prints in Hp;
  repeat (apply elem_of_cons in Hk as [->|Hk];
          [match goal with E : ToString _ = Ok _ |- _ => by rewrite E in Hp end|]);
  by apply elem_of_nil in Hk.

Lemma unprinted_field (o : obj) :
  (∀ k, k ∈ printed_by_booking → prints (get o k) = true) →
  ∀ k e, ToString (get o k) = Throw e → k ∈ printed_by_booking → False.
Proof. intros H k e E Hk. apply H in Hk. unfold prints in Hk. by rewrite E in Hk. Qed.

Lemma customerMailOptions_prints (v : variant) (env : environment) (bookingData : obj)
    (number formatted url : string) :
  (∀ k, k ∈ printed_by_booking → prints (get bookingData k) = true) →
  ∃ m, customerMailOptions v env bookingData number formatted url = Ok m
       ∧ from m = env_value (EMAIL_USER env)
       ∧ to m = get bookingData "email"
       ∧ subject m = customer_subject v number.
Proof.
  intros H. unfold customerMailOptions.
  print_fields bookingData; first
    [ exfalso;
      match goal with
      | E : ToString (get _ ?k) = Throw _ |- _ =>
          apply (unprinted_field _ H k _ E); unfold printed_by_booking; is_listed
      end
    | eexists; repeat split; reflexivity ].
Qed.

Lemma adminMailOptions_prints (v : variant) (env : environment) (bookingData : obj)
    (number formatted : string) :
  (∀ k, k ∈ printed_by_booking → prints (get bookingData k) = true) →
  ∃ m, adminMailOptions v env bookingData number formatted = Ok m
       ∧ from m = env_value (EMAIL_USER env)
       ∧ to m = env_value (EMAIL_USER env)
       ∧ subject m = admin_subject v number.
Proof.
  intros H. unfold adminMailOptions.
  print_fields bookingData; first
    [ exfalso;
      match goal with
      | E : ToString (get _ ?k) = Throw _ |- _ =>
          apply (unprinted_field _ H k _ E); unfold printed_by_booking; is_listed
      end
    | eexists; repeat split; reflexivity ].
Qed.

Lemma customerMailOptions_throws (v : variant) (env : environment) (bookingData : obj)
    (number formatted url k : string) :
  k ∈ printed_by_booking → prints (get bookingData k) = false →
  ∃ e, customerMailOptions v env bookingData number formatted url = Throw e.
Proof.
  intros Hk Hp. unfold customerMailOptions.
  print_fields bookingData; first [by eexists | idtac].
  unfold printed_by_booking in Hk. one_of_the_fields Hk Hp.
Qed.

Lemma formattedDateTime_prints (v : variant) (env : environment) (bookingData : obj) :
  prints (get bookingData "dateTime") = true →
  ∃ formatted, formattedDateTime v env bookingData = Ok formatted.
Proof.
  intros [s Hs]%prints_Ok. unfold formattedDateTime.
  destruct (_ && _); [|eauto].
  unfold ToPrimitive. destruct (get bookingData "dateTime"); step_bind; eauto.
  - rewrite Hs. step_bind. eauto.
  - rewrite Hs. step_bind. eauto.
Qed.

Lemma formattedDateTime_throws (v : variant) (env : environment) (bookingData : obj) :
  get bookingData "type" = VStr (scheduled_label v) →
  prints (get bookingData "dateTime") = false →
  ∃ e, formattedDateTime v env bookingData = Throw e.
Proof.
  intros Hty [e He]%prints_Throw. unfold formattedDateTime. rewrite Hty.
  unfold ToPrimitive. destruct (get bookingData "dateTime"); try (by destruct b); try done.
  - simpl. rewrite bool_decide_eq_true_2 by done. simpl in *. rewrite He. eauto.
  - simpl. rewrite bool_decide_eq_true_2 by done. simpl in *. rewrite He. eauto.
Qed.

(** *** The booking handler, by what renders *)

Section Rendering.
Context (v : variant) (env : environment) (n : draws) (bookingData : obj) (w : world).

Let number := generateBookingNumber (Date_now n) (random_floor n).
Let token := generateCancellationToken (randomBytes n).
Let record := booking_record number bookingData (toISOString n).
Let stored := Map_set token record w.

Lemma book_ride_begin_rendered (formatted : string) (customer admin : mail) :
  formattedDateTime v env bookingData = Ok formatted →
  customerMailOptions v env bookingData number formatted (cancellationUrl v env token)
    = Ok customer →
  adminMailOptions v env bookingData number formatted = Ok admin →
  book_ride_begin v env n bookingData w =
    (BookAwaiting number, emit (SendMail admin) (emit (SendMail customer) stored)).
Proof.
  intros Hf Hc Ha. unfold book_ride_begin. fold number token. fold record. fold stored.
  rewrite Hf. step_bind. rewrite Hc. step_bind. by rewrite Ha.
Qed.

Lemma book_ride_begin_unrendered :
  (∃ e, formattedDateTime v env bookingData = Throw e)
  ∨ (∀ formatted, ∃ e,
       customerMailOptions v env bookingData number formatted (cancellationUrl v env token)
         = Throw e) →
  ∃ e, book_ride_begin v env n bookingData w =
         (BookResponded (booking_failure v), emit (ConsoleError "Booking error:" e) stored).
Proof.
  intros H. unfold book_ride_begin. fold number token. fold record. fold stored.
  destruct (formattedDateTime v env bookingData) as [formatted|e0] eqn:Hf.
  - destruct H as [[e He]|H]; [done|]. destruct (H formatted) as [e He].
    step_bind. rewrite He. by exists e.
  - by exists e0.
Qed.

End Rendering.

(** X1. Without any validation of the body: when the printed properties
    of the request all print (missing ones print as [undefined]), the
    handler hands exactly two mails to [sendMail], first the customer's,
    addressed to the [email] of the body, then the admin's, addressed to
    [EMAIL_USER], both with the generated number in the subject; the answer
    is the 200 body when both sends are fulfilled and the fixed 500 body as
    soon as one is rejected. *)
Theorem booking_of_printable_body (v : variant) (env : environment) (n : draws)
    (d : delivery) (bookingData : obj) (w : world) :
  (∀ k, k ∈ "dateTime" :: printed_by_booking → prints (get bookingData k) = true) →
  let number := generateBookingNumber (Date_now n) (random_floor n) in
  let after := book_ride v env n d bookingData w in
  (∃ customer admin,
     sent_mails (snd after) = sent_mails w ++ [customer; admin]
     ∧ from customer = env_value (EMAIL_USER env)
     ∧ to customer = get bookingData "email"
     ∧ subject customer = customer_subject v number
     ∧ from admin = env_value (EMAIL_USER env)
     ∧ to admin = env_value (EMAIL_USER env)
     ∧ subject admin = admin_subject v number)
  ∧ (customer_send d = Fulfilled ∧ admin_send d = Fulfilled →
     fst after = booking_success v number)
  ∧ (∀ e, customer_send d = Rejected e ∨ admin_send d = Rejected e →
     fst after = booking_failure v).
Proof.
  intros H number after.
  assert (∀ k, k ∈ printed_by_booking → prints (get bookingData k) = true) as Hfields
    by (intros k Hk; apply H; by right).
  destruct (formattedDateTime_prints v env bookingData) as [formatted Hf]; [apply H; by left|].
  destruct (customerMailOptions_prints v env bookingData number formatted
              (cancellationUrl v env (generateCancellationToken (randomBytes n))) Hfields)
    as (customer & Hc & Hc1 & Hc2 & Hc3).
  destruct (adminMailOptions_prints v env bookingData number formatted Hfields)
    as (admin & Ha & Ha1 & Ha2 & Ha3).
  unfold after, book_ride.
  rewrite (book_ride_begin_rendered v env n bookingData w formatted customer admin Hf Hc Ha).
  unfold book_ride_resume. split; [|split].
  - exists customer, admin. split; [|done].
    destruct (Promise_all d); simpl; rewrite !sent_mails_emit, ?sent_mails_Map_set; simpl;
      by rewrite <- ?app_assoc, ?app_nil_r.
  - intros Hd%Promise_all_Ok. by rewrite Hd.
  - intros e He. destruct (Promise_all d) as [[]|e'] eqn:Hd; [|done].
    apply Promise_all_Ok in Hd as [Hc' Ha']. destruct He; congruence.
Qed.

(** The empty body [{}] is booked: status 200 and a customer mail
    addressed to [undefined]. *)
Lemma booking_of_printable_body_witness :
  let after := book_ride English Sample.env Sample.now Sample.delivered ∅ Sample.empty in
  status_of (fst after) = 200
  ∧ ∃ customer admin,
      sent_mails (snd after) = [customer; admin] ∧ to customer = VUndefined.
Proof.
  assert (∀ k, k ∈ "dateTime" :: printed_by_booking → prints (get (∅ : obj) k) = true) as H
    by (intros k _; unfold get; by rewrite lookup_empty).
  destruct (booking_of_printable_body English Sample.env Sample.now Sample.delivered ∅
              Sample.empty H) as ((customer & admin & Hsent & _ & Hto & _) & Hok & _).
  cbv zeta. split; [by rewrite Hok|].
  exists customer, admin. split; [exact Hsent | exact Hto].
Defined.

(** X2. When one of the properties the booking mails print does not
    print (an object with an own [toString] property, or an array that
    holds one), or when the ride is scheduled and its [dateTime] does not
    print, the handler answers the fixed 500 body and hands no mail to
    [sendMail]; the record was stored before the mails were rendered and
    stays in the store, under a token that no mail ever carried. *)
Theorem booking_with_unprintable_field (v : variant) (env : environment) (n : draws)
    (d : delivery) (bookingData : obj) (w : world) (k : string) :
  k ∈ printed_by_booking ∧ prints (get bookingData k) = false
  ∨ get bookingData "type" = VStr (scheduled_label v)
    ∧ prints (get bookingData "dateTime") = false →
  let token := generateCancellationToken (randomBytes n) in
  let record :=
    booking_record (generateBookingNumber (Date_now n) (random_floor n)) bookingData
      (toISOString n) in
  let after := book_ride v env n d bookingData w in
  fst after = booking_failure v
  ∧ activeBookings (snd after) !! token = Some record
  ∧ sent_mails (snd after) = sent_mails w
  ∧ ∃ e, trace (snd after) =
           trace w ++ [StoreSet token record; ConsoleError "Booking error:" e].
Proof.
  intros Hunprintable token record after.
  destruct (book_ride_begin_unrendered v env n bookingData w) as [e He].
  { destruct Hunprintable as [[Hk Hp]|[Hty Hp]].
    - right. intros formatted. by eapply customerMailOptions_throws.
    - left. by apply formattedDateTime_throws. }
  unfold after, book_ride. rewrite He. simpl.
  split; [done|]. split; [apply lookup_insert_eq|]. split.
  - rewrite sent_mails_emit, sent_mails_Map_set. apply app_nil_r.
  - exists e. by rewrite <- app_assoc.
Qed.

(** A [name] that is an object with an own [toString]. *)
Lemma booking_with_unprintable_field_witness :
  let body := <["name" := VObj {["toString" := VNull]}]> Sample.scheduled_ride in
  let after := book_ride English Sample.env Sample.now Sample.delivered body Sample.empty in
  prints (get body "name") = false
  ∧ status_of (fst after) = 500
  ∧ is_Some (activeBookings (snd after) !! Sample.token)
  ∧ sent_mails (snd after) = [].
Proof.
  cbv zeta.
  assert ("name" ∈ printed_by_booking) as Hk by (unfold printed_by_booking; is_listed).
  assert (prints (get (<["name" := VObj {["toString" := VNull]}]> Sample.scheduled_ride) "name")
          = false) as Hp by (by vm_compute).
  destruct (booking_with_unprintable_field English Sample.env Sample.now Sample.delivered
              (<["name" := VObj {["toString" := VNull]}]> Sample.scheduled_ride) Sample.empty
              "name" (or_introl (conj Hk Hp))) as (Hresp & Hstore & Hsent & _).
  split; [exact Hp|]. split; [by rewrite Hresp|].
  split; [unfold Sample.token; by rewrite Hstore|]. exact Hsent.
Defined.

(** X3. When the mails render and [Promise.all] rejects, both mails were
    handed to [sendMail] before (the second send is started whether or not
    the first one fails), the rejection is that of one of the two sends,
    and it goes to the console and nowhere else: the trace of the request
    is the store, the two sends and the log entry. *)
Theorem booking_rejection_is_logged (v : variant) (env : environment) (n : draws)
    (d : delivery) (bookingData : obj) (w : world) (e : error) :
  (∀ k, k ∈ "dateTime" :: printed_by_booking → prints (get bookingData k) = true) →
  Promise_all d = Throw e →
  let token := generateCancellationToken (randomBytes n) in
  let record :=
    booking_record (generateBookingNumber (Date_now n) (random_floor n)) bookingData
      (toISOString n) in
  let after := book_ride v env n d bookingData w in
  (customer_send d = Rejected e ∨ admin_send d = Rejected e)
  ∧ ∃ customer admin,
      trace (snd after) =
        trace w ++ [StoreSet token record; SendMail customer; SendMail admin;
                    ConsoleError "Booking error:" e].
Proof.
  intros H Hd token record after. split.
  { unfold Promise_all in Hd.
    destruct (customer_send d), (admin_send d), (admin_settles_first d);
      try done; injection Hd as <-; auto. }
  assert (∀ k, k ∈ printed_by_booking → prints (get bookingData k) = true) as Hfields
    by (intros k Hk; apply H; by right).
  destruct (formattedDateTime_prints v env bookingData) as [formatted Hf]; [apply H; by left|].
  destruct (customerMailOptions_prints v env bookingData
              (generateBookingNumber (Date_now n) (random_floor n)) formatted
              (cancellationUrl v env (generateCancellationToken (randomBytes n))) Hfields)
    as (customer & Hc & _).
  destruct (adminMailOptions_prints v env bookingData
              (generateBookingNumber (Date_now n) (random_floor n)) formatted Hfields)
    as (admin & Ha & _).
  exists customer, admin. unfold after, book_ride.
  rewrite (book_ride_begin_rendered v env n bookingData w formatted customer admin Hf Hc Ha).
  unfold book_ride_resume. rewrite Hd. simpl. by rewrite <- !app_assoc.
Qed.

(** The sample booking with the customer mail rejected. *)
Lemma booking_rejection_is_logged_witness :
  let after := book_ride English Sample.env Sample.now Sample.undelivered Sample.scheduled_ride
                 Sample.empty in
  ∃ record customer admin,
    trace (snd after) =
      [StoreSet Sample.token record; SendMail customer; SendMail admin;
       ConsoleError "Booking error:" Sample.bad_login].
Proof.
  assert (∀ k, k ∈ "dateTime" :: printed_by_booking →
               prints (get Sample.scheduled_ride k) = true) as H.
  { intros k Hk. unfold printed_by_booking in Hk.
    repeat (apply elem_of_cons in Hk as [->|Hk]; [by vm_compute|]).
    by apply elem_of_nil in Hk. }
  destruct (booking_rejection_is_logged English Sample.env Sample.now Sample.undelivered
              Sample.scheduled_ride Sample.empty Sample.bad_login H eq_refl)
    as (_ & customer & admin & Htrace).
  cbv zeta. eexists _, customer, admin. exact Htrace.
Defined.

(** *** The store *)

(** X4. Whatever its outcome, a booking changes the store at the key of
    its token only: every other record is as it was and the trace only
    grows; the number of records grows by one when the token is fresh and
    stays the same when the token was in use, the older record being
    replaced. *)
Theorem booking_store_effect (v : variant) (env : environment) (n : draws) (d : delivery)
    (bookingData : obj) (w : world) (key : string) :
  let token := generateCancellationToken (randomBytes n) in
  let record :=
    booking_record (generateBookingNumber (Date_now n) (random_floor n)) bookingData
      (toISOString n) in
  let after := book_ride v env n d bookingData w in
  activeBookings (snd after) !! key =
    (if decide (key = token) then Some record else activeBookings w !! key)
  ∧ size (activeBookings (snd after)) =
      match activeBookings w !! token with
      | Some _ => size (activeBookings w)
      | None => S (size (activeBookings w))
      end
  ∧ ∃ new, trace (snd after) = trace w ++ new.
Proof.
  intros token record after. unfold after. rewrite book_ride_store.
  split; [|split].
  - destruct (decide (key = token)) as [->|Hne];
      [apply lookup_insert_eq | by apply lookup_insert_ne].
  - rewrite map_size_insert. fold token. by destruct (activeBookings w !! token).
  - destruct (book_ride_trace v env n bookingData w d) as (rest & -> & _). eauto.
Qed.

Lemma toString_hex_inj (a b : list byte) : toString_hex a = toString_hex b → a = b.
Proof.
  intros H. pose proof (from_hex_toString_hex a) as Ha.
  rewrite H, from_hex_toString_hex in Ha. by injection Ha.
Qed.

(** X5. Two bookings whose random buffers differ get different tokens,
    and after the second one both records are in the store, each under its
    own token. *)
Theorem two_bookings_two_records (v : variant) (env : environment) (n1 n2 : draws)
    (d1 d2 : delivery) (body1 body2 : obj) (w : world) :
  randomBytes n1 ≠ randomBytes n2 →
  let token1 := generateCancellationToken (randomBytes n1) in
  let token2 := generateCancellationToken (randomBytes n2) in
  let w1 := snd (book_ride v env n1 d1 body1 w) in
  let w2 := snd (book_ride v env n2 d2 body2 w1) in
  token1 ≠ token2
  ∧ activeBookings w2 !! token1 =
      Some (booking_record (generateBookingNumber (Date_now n1) (random_floor n1)) body1
              (toISOString n1))
  ∧ activeBookings w2 !! token2 =
      Some (booking_record (generateBookingNumber (Date_now n2) (random_floor n2)) body2
              (toISOString n2)).
Proof.
  intros Hne token1 token2 w1 w2.
  assert (token1 ≠ token2) as Htok
    by (intros Heq; by apply Hne, toString_hex_inj).
  split; [done|]. unfold w2, w1. rewrite !book_ride_store. fold token1 token2.
  split; [|apply lookup_insert_eq].
  rewrite lookup_insert_ne by done. apply lookup_insert_eq.
Qed.

(** The sample booking and a later one. *)
Lemma two_bookings_two_records_witness :
  let w2 := snd (book_ride English Sample.env Later.now Sample.delivered Sample.forged
                   Sample.booked) in
  is_Some (activeBookings w2 !! Sample.token)
  ∧ is_Some (activeBookings w2 !! Later.token)
  ∧ size (activeBookings w2) = 2.
Proof.
  assert (randomBytes Sample.now ≠ randomBytes Later.now) as Hne by (by vm_compute).
  destruct (two_bookings_two_records English Sample.env Sample.now Later.now Sample.delivered
              Sample.delivered Sample.scheduled_ride Sample.forged Sample.empty Hne)
    as (_ & H1 & H2).
  cbv zeta. split; [unfold Sample.token, Sample.booked; by rewrite H1|].
  split; [unfold Later.token, Sample.booked; by rewrite H2|].
  by vm_compute.
Defined.

(** *** Booking numbers *)

Lemma append_inj_length (a a' b b' : string) :
  String.length a = String.length a' → a +:+ b = a' +:+ b' → a = a' ∧ b = b'.
Proof.
  revert a'; induction a as [|c a IH]; intros [|c' a']; simpl; try done.
  intros [= Hlen] [= <- H]. by destruct (IH a' Hlen H) as [-> ->].
Qed.

Lemma last_digits_mod (k : nat) (n m : N) :
  (n mod 10 ^ N.of_nat k = m mod 10 ^ N.of_nat k)%N → last_digits k n = last_digits k m.
Proof.
  revert n m; induction k as [|k IH]; intros n m H; [done|].
  rewrite Nat2N.inj_succ, N.pow_succ_r' in H.
  rewrite (N.Div0.mod_mul_r n 10), (N.Div0.mod_mul_r m 10) in H.
  assert (∀ x y x' y' : N, (x < 10)%N → (x' < 10)%N →
            (x + 10 * y = x' + 10 * y')%N → x = x' ∧ y = y') as Hsplit by lia.
  apply Hsplit in H as [H0 H1]; [|by apply N.mod_lt..].
  cbn [last_digits]. by rewrite (IH (n / 10)%N (m / 10)%N H1), H0.
Qed.

(** X6. Booking numbers repeat: with a clock past the first 100 seconds
    of the epoch and draws below 1000, two numbers are equal exactly when
    the two clocks agree modulo a million milliseconds (1000 seconds) and
    the two draws are equal. *)
Theorem booking_numbers_repeat (now now' : Z) (r r' : N) :
  (100000 ≤ now)%Z → (100000 ≤ now')%Z → (r < 1000)%N → (r' < 1000)%N →
  generateBookingNumber now r = generateBookingNumber now' r'
  ↔ (now mod 1000000 = now' mod 1000000)%Z ∧ r = r'.
Proof.
  intros Hnow Hnow' Hr Hr'.
  rewrite !generateBookingNumber_digits by done.
  assert (∀ z, (0 ≤ z)%Z → Z.of_N (Z.to_N z mod 10 ^ N.of_nat 6) = (z mod 1000000)%Z) as Hmod.
  { intros z Hz. change (10 ^ N.of_nat 6)%N with 1000000%N.
    rewrite N2Z.inj_mod, Z2N.id by done. done. }
  split.
  - intros H. apply (inj (String.append "TB")) in H.
    apply append_inj_length in H as [H6 H3]; [|by rewrite !length_last_digits].
    apply (f_equal decimal_value) in H6, H3. rewrite !decimal_value_last_digits in H6, H3.
    split.
    + rewrite <- !Hmod by lia. by rewrite H6.
    + change (10 ^ N.of_nat 3)%N with 1000%N in H3. by rewrite !N.mod_small in H3.
  - intros [H ->]. f_equal. f_equal. apply last_digits_mod.
    apply N2Z.inj. rewrite !Hmod by lia. done.
Qed.

(** The same draw 1000 seconds later gives the number again. *)
Lemma booking_numbers_repeat_witness :
  Date_now Later.now = (Date_now Sample.now + 1000000)%Z
  ∧ generateBookingNumber (Date_now Later.now) (random_floor Later.now) =
      generateBookingNumber (Date_now Sample.now) (random_floor Sample.now).
Proof.
  split; [reflexivity|].
  apply (booking_numbers_repeat (Date_now Later.now) (Date_now Sample.now)
           (random_floor Later.now) (random_floor Sample.now));
    [by vm_compute.. | split; [by vm_compute | reflexivity]].
Defined.

(** *** The cancellation handler *)

Lemma customerCancelMailOptions_Ok (v : variant) (env : environment) (booking : obj) (m : mail) :
  customerCancelMailOptions v env booking = Ok m →
  ∃ number, ToString (get booking "bookingNumber") = Ok number
    ∧ from m = env_value (EMAIL_USER env)
    ∧ to m = get booking "email"
    ∧ subject m = customer_cancel_subject v number.
Proof.
  unfold customerCancelMailOptions. intros H. open_binds H. injection H as <-. eauto.
Qed.

Lemma adminCancelMailOptions_Ok (v : variant) (env : environment) (booking : obj) (m : mail) :
  adminCancelMailOptions v env booking = Ok m →
  ∃ number, ToString (get booking "bookingNumber") = Ok number
    ∧ from m = env_value (EMAIL_USER env)
    ∧ to m = env_value (EMAIL_USER env)
    ∧ subject m = admin_cancel_subject v number.
Proof.
  unfold adminCancelMailOptions. intros H. open_binds H. injection H as <-. eauto.
Qed.

Lemma adminCancelMailOptions_throws (v : variant) (env : environment) (booking : obj)
    (k : string) :
  k ∈ printed_by_cancellation → prints (get booking k) = false →
  ∃ e, adminCancelMailOptions v env booking = Throw e.
Proof.
  intros Hk Hp. unfold adminCancelMailOptions.
  print_fields booking; first [by eexists | idtac].
  unfold printed_by_cancellation in Hk. one_of_the_fields Hk Hp.
Qed.

Lemma success_page_number (v : variant) (number : string) :
  contains (success_page v number) number.
Proof. destruct v; unfold success_page, success_page_de, success_page_en; find_occurrence. Qed.

(** A cancellation that is answered with 200, in full. *)
Lemma cancel_ride_answered_200 (v : variant) (env : environment) (d : delivery)
    (token : string) (booking : obj) (w : world) :
  activeBookings w !! token = Some booking →
  status_of (fst (cancel_ride v env d (QString token) w)) = 200 →
  ∃ number customer admin,
    ToString (get booking "bookingNumber") = Ok number
    ∧ customerCancelMailOptions v env booking = Ok customer
    ∧ adminCancelMailOptions v env booking = Ok admin
    ∧ cancel_ride v env d (QString token) w =
        (send 200 (success_page v number),
         Map_delete token (emit (SendMail admin) (emit (SendMail customer) w))).
Proof.
  intros Hpresent. pose proof (cancel_ride_present v env w token booking Hpresent d) as H.
  destruct (customerCancelMailOptions v env booking) as [customer|]; [|by rewrite H].
  destruct (adminCancelMailOptions v env booking) as [admin|]; [|by rewrite H].
  cbv zeta in H. destruct (Promise_all d); [|by rewrite H].
  destruct H as (number & Hn & ->). intros _. by exists number, customer, admin.
Qed.

(** X7. A cancellation answered with 200 has handed exactly two mails to
    [sendMail], the customer's to the [email] of the stored record and the
    admin's to [EMAIL_USER]; the subjects and the success page carry the
    [bookingNumber] of the stored record as it prints, and the store is the
    old one without the token. *)
Theorem cancellation_answer (v : variant) (env : environment) (d : delivery)
    (token : string) (booking : obj) (w : world) :
  activeBookings w !! token = Some booking →
  let after := cancel_ride v env d (QString token) w in
  status_of (fst after) = 200 →
  ∃ number customer admin,
    ToString (get booking "bookingNumber") = Ok number
    ∧ fst after = send 200 (success_page v number)
    ∧ contains (success_page v number) number
    ∧ sent_mails (snd after) = sent_mails w ++ [customer; admin]
    ∧ from customer = env_value (EMAIL_USER env)
    ∧ to customer = get booking "email"
    ∧ subject customer = customer_cancel_subject v number
    ∧ from admin = env_value (EMAIL_USER env)
    ∧ to admin = env_value (EMAIL_USER env)
    ∧ subject admin = admin_cancel_subject v number
    ∧ activeBookings (snd after) = delete token (activeBookings w).
Proof.
  intros Hpresent after Hok. unfold after in *.
  destruct (cancel_ride_answered_200 v env d token booking w Hpresent Hok)
    as (number & customer & admin & Hn & Hc & Ha & ->).
  apply customerCancelMailOptions_Ok in Hc as (n1 & Hn1 & Hc1 & Hc2 & Hc3).
  apply adminCancelMailOptions_Ok in Ha as (n2 & Hn2 & Ha1 & Ha2 & Ha3).
  assert (n1 = number) as -> by congruence. assert (n2 = number) as -> by congruence.
  exists number, customer, admin. simpl.
  rewrite sent_mails_Map_delete, !sent_mails_emit, <- app_assoc.
  repeat split; try done. apply success_page_number.
Qed.

(** The cancellation of the sample booking. *)
Lemma cancellation_answer_witness :
  let after := cancel_ride English Sample.env Sample.delivered (QString Sample.token)
                 Sample.booked in
  status_of (fst after) = 200
  ∧ ∃ customer admin,
      sent_mails (snd after) = sent_mails Sample.booked ++ [customer; admin]
      ∧ to customer = VStr "ada@example.com"
      ∧ subject customer = "TaxiBoy - Booking Cancellation Confirmation #TB200123007"
      ∧ size (activeBookings (snd after)) = 0.
Proof.
  cbv zeta.
  assert (activeBookings Sample.booked !! Sample.token =
            Some (booking_record
                    (generateBookingNumber (Date_now Sample.now) (random_floor Sample.now))
                    Sample.scheduled_ride (toISOString Sample.now)))
    as Hpresent by (unfold Sample.booked; rewrite book_ride_store; apply lookup_insert_eq).
  assert (status_of (fst (cancel_ride English Sample.env Sample.delivered
                            (QString Sample.token) Sample.booked)) = 200) as Hok
    by (by vm_compute).
  destruct (cancellation_answer English Sample.env Sample.delivered Sample.token _
              Sample.booked Hpresent Hok)
    as (number & customer & admin & Hn & _ & _ & Hsent & _ & Hto & Hsub & _ & _ & _ & Hstore).
  assert (number = "TB200123007") as -> by (vm_compute in Hn; by injection Hn).
  split; [exact Hok|]. exists customer, admin.
  split; [exact Hsent|]. split; [rewrite Hto; by vm_compute|]. split; [exact Hsub|].
  rewrite Hstore. by vm_compute.
Defined.

(** X8. The number shown at cancellation is the stored one: when the
    request body of a booking brings its own [bookingNumber], a string, a
    later cancellation answered with 200 shows the client's string on the
    success page and in the subjects of both cancellation mails, while the
    booking itself was answered with the generated number. *)
Theorem cancellation_shows_the_stored_number (v : variant) (env : environment) (n : draws)
    (d1 d2 : delivery) (bookingData : obj) (w : world) (supplied : string) :
  bookingData !! "bookingNumber" = Some (VStr supplied) →
  let generated := generateBookingNumber (Date_now n) (random_floor n) in
  let token := generateCancellationToken (randomBytes n) in
  let booked := book_ride v env n d1 bookingData w in
  let cancelled := cancel_ride v env d2 (QString token) (snd booked) in
  status_of (fst booked) = 200 → status_of (fst cancelled) = 200 →
  fst booked = booking_success v generated
  ∧ fst cancelled = send 200 (success_page v supplied)
  ∧ ∃ customer admin,
      sent_mails (snd cancelled) = sent_mails (snd booked) ++ [customer; admin]
      ∧ subject customer = customer_cancel_subject v supplied
      ∧ subject admin = admin_cancel_subject v supplied.
Proof.
  intros Hsup generated token booked cancelled Hbooked Hcancelled.
  split; [by apply (book_ride_success v env n bookingData w d1)|].
  assert (activeBookings (snd booked) !! token
          = Some (booking_record generated bookingData (toISOString n))) as Hpresent
    by (unfold booked; rewrite book_ride_store; apply lookup_insert_eq).
  unfold cancelled in *.
  destruct (cancel_ride_answered_200 v env d2 token _ (snd booked) Hpresent Hcancelled)
    as (number & customer & admin & Hn & Hc & Ha & ->).
  assert (number = supplied) as ->.
  { unfold get in Hn. rewrite booking_record_bookingNumber, Hsup in Hn. simpl in Hn.
    by injection Hn. }
  apply customerCancelMailOptions_Ok in Hc as (n1 & Hn1 & _ & _ & Hc3).
  apply adminCancelMailOptions_Ok in Ha as (n2 & Hn2 & _ & _ & Ha3).
  assert (n1 = supplied) as -> by congruence. assert (n2 = supplied) as -> by congruence.
  split; [done|]. exists customer, admin. simpl.
  by rewrite sent_mails_Map_delete, !sent_mails_emit, <- app_assoc.
Qed.

(** The sample request that brings [TB000000000]. *)
Lemma cancellation_shows_the_stored_number_witness :
  let booked := book_ride English Sample.env Sample.now Sample.delivered Sample.forged
                  Sample.empty in
  let cancelled := cancel_ride English Sample.env Sample.delivered (QString Sample.token)
                     (snd booked) in
  fst booked = booking_success English "TB200123007"
  ∧ fst cancelled = send 200 (success_page English "TB000000000").
Proof.
  assert (Sample.forged !! "bookingNumber" = Some (VStr "TB000000000")) as Hsup
    by (by vm_compute).
  destruct (cancellation_shows_the_stored_number English Sample.env Sample.now
              Sample.delivered Sample.delivered Sample.forged Sample.empty "TB000000000" Hsup)
    as (Hbooked & Hcancelled & _); [by vm_compute.. |].
  cbv zeta. split; [exact Hbooked | exact Hcancelled].
Defined.

(** *** The same link opened several times *)

Lemma cancel_attempts_absent (v : variant) (env : environment) (ds : list delivery)
    (token : query_param) (w : world) :
  Map_get w token = None →
  cancel_attempts v env ds token w = (replicate (List.length ds) (cancel_not_found v), w).
Proof.
  intros Habsent. induction ds as [|d ds IH]; [done|].
  cbn [cancel_attempts]. unfold cancel_ride.
  rewrite cancel_ride_begin_absent by done. by rewrite IH.
Qed.

Lemma cancel_ride_unprintable (v : variant) (env : environment) (d : delivery)
    (token : string) (booking : obj) (w : world) (k : string) :
  activeBookings w !! token = Some booking →
  k ∈ printed_by_cancellation → prints (get booking k) = false →
  ∃ e, cancel_ride v env d (QString token) w =
         (cancel_failure v, emit (ConsoleError (cancel_error_label v) e) w).
Proof.
  intros Hpresent Hk Hp.
  pose proof (cancel_ride_present v env w token booking Hpresent d) as H.
  destruct (adminCancelMailOptions_throws v env booking k Hk Hp) as [e He].
  rewrite He in H. destruct (customerCancelMailOptions v env booking); eauto.
Qed.

(** X9. A stored record with a property that the cancellation mails
    print and that does not print (the [bookingNumber] a client supplied
    as an object with an own [toString], say) cannot be cancelled: however
    often the link is opened and however the sends would settle, every
    answer is the fixed 500 text, no mail is handed to [sendMail], and the
    store stays as it is. *)
Theorem unprintable_record_cannot_be_cancelled (v : variant) (env : environment)
    (ds : list delivery) (token : string) (booking : obj) (w : world) (k : string) :
  activeBookings w !! token = Some booking →
  k ∈ printed_by_cancellation → prints (get booking k) = false →
  let after := cancel_attempts v env ds (QString token) w in
  fst after = replicate (List.length ds) (send 500 (cancel_failed v))
  ∧ activeBookings (snd after) = activeBookings w
  ∧ sent_mails (snd after) = sent_mails w.
Proof.
  intros Hpresent Hk Hp. revert w Hpresent.
  induction ds as [|d ds IH]; intros w Hpresent; [done|].
  destruct (cancel_ride_unprintable v env d token booking w k Hpresent Hk Hp) as [e He].
  cbn [cancel_attempts]. rewrite He.
  specialize (IH (emit (ConsoleError (cancel_error_label v) e) w) Hpresent).
  destruct (cancel_attempts v env ds (QString token) _) as [rs w'].
  simpl in *. destruct IH as (-> & -> & ->).
  split; [done|]. split; [done|]. rewrite sent_mails_emit. apply app_nil_r.
Qed.

(** Three attempts on the booking of [Sample.unprintable]. *)
Lemma unprintable_record_cannot_be_cancelled_witness :
  let booked := book_ride English Sample.env Sample.now Sample.delivered Sample.unprintable
                  Sample.empty in
  let after := cancel_attempts English Sample.env
                 [Sample.delivered; Sample.undelivered; Sample.delivered]
                 (QString Sample.token) (snd booked) in
  status_of (fst booked) = 200
  ∧ status_of <$> fst after = [500; 500; 500]
  ∧ is_Some (activeBookings (snd after) !! Sample.token).
Proof.
  cbv zeta.
  assert (activeBookings (snd (book_ride English Sample.env Sample.now Sample.delivered
                                 Sample.unprintable Sample.empty)) !! Sample.token =
            Some (booking_record
                    (generateBookingNumber (Date_now Sample.now) (random_floor Sample.now))
                    Sample.unprintable (toISOString Sample.now)))
    as Hpresent by (rewrite book_ride_store; apply lookup_insert_eq).
  assert ("bookingNumber" ∈ printed_by_cancellation) as Hk
    by (unfold printed_by_cancellation; is_listed).
  destruct (unprintable_record_cannot_be_cancelled English Sample.env
              [Sample.delivered; Sample.undelivered; Sample.delivered] Sample.token _ _
              "bookingNumber" Hpresent Hk) as (Hrs & Hstore & _); [by vm_compute|].
  split; [by vm_compute|]. split; [by rewrite Hrs|].
  by rewrite Hstore, Hpresent.
Defined.

Lemma successes_cons (r : response) (rs : list response) :
  successes (r :: rs) = (if decide (status_of r = 200) then 1 else 0) + successes rs.
Proof. unfold successes. rewrite filter_cons. by destruct (decide _). Qed.

Lemma successes_not_found (v : variant) (k : nat) :
  successes (replicate k (cancel_not_found v)) = 0.
Proof. induction k as [|k IH]; [done|]. simpl. by rewrite successes_cons, IH. Qed.

(** X10. Opened one request after the other, a cancellation link succeeds
    at most once: whatever the token, the store and the outcomes of the
    sends, at most one of the answers is a 200, and every answer after it
    is the 404. *)
Theorem cancellation_succeeds_at_most_once (v : variant) (env : environment)
    (ds : list delivery) (token : query_param) (w : world) :
  (successes (fst (cancel_attempts v env ds token w)) ≤ 1)%nat
  ∧ ∀ before d later,
      ds = before ++ d :: later →
      status_of (fst (cancel_ride v env d token
                        (snd (cancel_attempts v env before token w)))) = 200 →
      fst (cancel_attempts v env ds token w) =
        fst (cancel_attempts v env (before ++ [d]) token w)
        ++ replicate (List.length later) (send 404 (not_found v)).
Proof.
  split.
  - revert w. induction ds as [|d ds IH]; intros w; [unfold successes; simpl; lia|].
    cbn [cancel_attempts].
    destruct (cancel_ride v env d token w) as [r w1] eqn:Hr.
    destruct (decide (status_of r = 200)) as [Hok|Hno].
    + pose proof (cancel_ride_200_removes v env d token w) as Hgone.
      rewrite Hr in Hgone. specialize (Hgone Hok). simpl in Hgone.
      rewrite cancel_attempts_absent by done. simpl.
      rewrite successes_cons, successes_not_found. destruct (decide _); lia.
    + specialize (IH w1). destruct (cancel_attempts v env ds token w1) as [rs w2].
      simpl in *. rewrite successes_cons. destruct (decide _); [done|lia].
  - intros before d later ->. revert w.
    induction before as [|d0 before IH]; intros w Hok.
    + simpl in Hok. cbn [app cancel_attempts].
      destruct (cancel_ride v env d token w) as [r w1] eqn:Hr.
      pose proof (cancel_ride_200_removes v env d token w) as Hgone.
      rewrite Hr in Hgone. specialize (Hgone Hok). simpl in Hgone.
      by rewrite cancel_attempts_absent.
    + cbn [app cancel_attempts] in *.
      destruct (cancel_ride v env d0 token w) as [r w1].
      specialize (IH w1).
      destruct (cancel_attempts v env before token w1) as [rs0 w2] eqn:Hbefore.
      specialize (IH Hok).
      destruct (cancel_attempts v env (before ++ d :: later) token w1) as [rs w3].
      destruct (cancel_attempts v env (before ++ [d]) token w1) as [rs' w3'].
      simpl in *. by rewrite IH.
Qed.

(** X11. Whatever its outcome, a cancellation leaves every record under
    another key as it was; it never stores anything; the store is the old
    one, or, exactly when the answer is a 200, the old one without the
    token; and the answer is a 200, the 404 or the 500. *)
Theorem cancellation_store_effect (v : variant) (env : environment) (d : delivery)
    (token : query_param) (w : world) :
  let after := cancel_ride v env d token w in
  (∀ key, token ≠ QString key →
     activeBookings (snd after) !! key = activeBookings w !! key)
  ∧ (if decide (status_of (fst after) = 200)
     then ∃ key, token = QString key ∧ is_Some (activeBookings w !! key)
                 ∧ activeBookings (snd after) = delete key (activeBookings w)
     else activeBookings (snd after) = activeBookings w)
  ∧ ((∃ page, fst after = send 200 page) ∨ fst after = cancel_not_found v
      ∨ fst after = cancel_failure v)
  ∧ ∃ new, trace (snd after) = trace w ++ new
           ∧ Forall (λ ev, match ev with StoreSet _ _ => False | _ => True end) new.
Proof.
  intros after. unfold after. clear after.
  destruct (Map_get w token) as [booking|] eqn:Hget.
  2:{ unfold cancel_ride. rewrite cancel_ride_begin_absent by done. simpl.
      split; [done|]. split; [done|]. split; [auto|].
      exists []. by rewrite app_nil_r. }
  destruct token as [|token|]; [done| |done]. simpl in Hget.
  pose proof (cancel_ride_present v env w token booking Hget d) as H.
  pattern (cancel_ride v env d (QString token) w).
  match goal with |- ?P _ => set (effect := P) end.
  assert (∀ e, effect (cancel_failure v, emit (ConsoleError (cancel_error_label v) e) w))
    as Hfailed.
  { intros e. unfold effect. simpl. split; [done|]. split; [done|]. split; [auto|].
    exists [ConsoleError (cancel_error_label v) e]. split; [done | by repeat constructor]. }
  destruct (customerCancelMailOptions v env booking) as [customer|e]; [|by rewrite H].
  destruct (adminCancelMailOptions v env booking) as [admin|e]; [|by rewrite H].
  cbv zeta in H. destruct (Promise_all d) as [[]|e].
  - destruct H as (number & _ & ->). unfold effect. simpl.
    split; [intros key Hne; apply lookup_delete_ne; congruence|].
    split; [exists token; by rewrite Hget|]. split; [eauto|].
    exists [SendMail customer; SendMail admin; StoreDelete token].
    split; [by rewrite <- !app_assoc | by repeat constructor].
  - rewrite H. unfold effect. simpl. split; [done|]. split; [done|]. split; [auto|].
    exists [SendMail customer; SendMail admin; ConsoleError (cancel_error_label v) e].
    split; [by rewrite <- !app_assoc | by repeat constructor].
Qed.

(** *** Two requests at once, under any schedule *)

Lemma cancel_ride_begin_effect (v : variant) (env : environment) (q : query_param)
    (w : world) :
  activeBookings (snd (cancel_ride_begin v env q w)) = activeBookings w
  ∧ (List.length (sent_mails (snd (cancel_ride_begin v env q w)))
     ≤ List.length (sent_mails w) + 2)%nat
  ∧ match fst (cancel_ride_begin v env q w) with
    | CancelAwaiting key _ => q = QString key
    | CancelResponded r => status_of r ≠ 200
    end.
Proof.
  destruct (Map_get w q) as [booking|] eqn:Hget.
  2:{ rewrite cancel_ride_begin_absent by done. simpl. split; [done|]. split; [lia|done]. }
  destruct q as [|key|]; [done| |done]. simpl in Hget.
  rewrite (cancel_ride_begin_present v env w key booking Hget).
  destruct (customerCancelMailOptions v env booking);
    [destruct (adminCancelMailOptions v env booking)|]; simpl;
    rewrite ?sent_mails_emit, ?length_app; simpl; (split; [done|]); (split; [lia|done]).
Qed.

Lemma cancel_ride_resume_effect (v : variant) (key : string) (booking : obj) (d : delivery)
    (w : world) :
  sent_mails (snd (cancel_ride_resume v key booking d w)) = sent_mails w
  ∧ (activeBookings (snd (cancel_ride_resume v key booking d w)) = delete key (activeBookings w)
     ∨ activeBookings (snd (cancel_ride_resume v key booking d w)) = activeBookings w
       ∧ status_of (fst (cancel_ride_resume v key booking d w)) ≠ 200).
Proof.
  unfold cancel_ride_resume. destruct (Promise_all d); [destruct (ToString _)|]; simpl;
    rewrite ?sent_mails_emit, ?sent_mails_Map_delete, ?app_nil_r; (split; [done|]);
    first [by left | by right].
Qed.

Section Overlap.
Context (v : variant) (env : environment) (token : string) (w0 : world).

(** One stretch of one request. *)
Lemma cancel_step_effect (d : delivery) (q : cancel_request) (w : world) :
  about_token token q →
  about_token token (fst (cancel_step v env d q w))
  ∧ (List.length (sent_mails (snd (cancel_step v env d q w))) + mails_of q
     ≤ List.length (sent_mails w) + mails_of (fst (cancel_step v env d q w)))%nat
  ∧ (activeBookings (snd (cancel_step v env d q w)) = delete token (activeBookings w)
     ∨ activeBookings (snd (cancel_step v env d q w)) = activeBookings w
       ∧ (succeeded (fst (cancel_step v env d q w)) = true → succeeded q = true)).
Proof.
  intros Hq. destruct q as [t|[key booking|r]]; simpl in Hq; subst.
  - unfold cancel_step.
    destruct (cancel_ride_begin_effect v env (QString token) w) as (Hstore & Hmails & Hwho).
    destruct (cancel_ride_begin v env (QString token) w) as [t w']. simpl in *.
    split; [destruct t; [congruence | done]|]. split; [lia|]. right. split; [done|].
    destruct t; [done|]. simpl. by intros ?%bool_decide_eq_true.
  - unfold cancel_step.
    destruct (cancel_ride_resume_effect v token booking d w) as (Hmails & Hstore).
    destruct (cancel_ride_resume v token booking d w) as [r w']. simpl in *.
    split; [done|]. split; [rewrite Hmails; lia|].
    destruct Hstore as [->|[-> Hno]]; [by left|]. right. split; [done|].
    by intros ?%bool_decide_eq_true.
  - simpl. split; [done|]. split; [lia|]. by right.
Qed.

Lemma overlap_invariant_step (d1 d2 : delivery) (s : two_requests) (t : turn) :
  overlap_invariant token w0 s → overlap_invariant token w0 (turn_step v env d1 d2 s t).
Proof.
  unfold overlap_invariant. destruct s as [q1 q2 w].
  intros (H1 & H2 & Hframe & Htoken & Hdone & Hmails).
  simpl in *. destruct t; unfold turn_step; simpl.
  - destruct (cancel_step_effect d1 q1 w H1) as (H1' & Hm & Hstore).
    destruct (cancel_step v env d1 q1 w) as [q1' w']. simpl in *.
    split; [done|]. split; [done|].
    destruct Hstore as [->|[-> Hs]].
    + split; [intros key Hne; rewrite lookup_delete_ne by done; by apply Hframe|].
      split; [right; apply lookup_delete_eq|]. split; [intros _; apply lookup_delete_eq|lia].
    + split; [done|]. split; [done|]. split; [|lia].
      intros [?|?]%orb_true_iff; apply Hdone, orb_true_iff; auto.
  - destruct (cancel_step_effect d2 q2 w H2) as (H2' & Hm & Hstore).
    destruct (cancel_step v env d2 q2 w) as [q2' w']. simpl in *.
    split; [done|]. split; [done|].
    destruct Hstore as [->|[-> Hs]].
    + split; [intros key Hne; rewrite lookup_delete_ne by done; by apply Hframe|].
      split; [right; apply lookup_delete_eq|]. split; [intros _; apply lookup_delete_eq|lia].
    + split; [done|]. split; [done|]. split; [|lia].
      intros [?|?]%orb_true_iff; apply Hdone, orb_true_iff; auto.
Qed.

Lemma overlap_invariant_run (d1 d2 : delivery) (schedule : list turn) (s : two_requests) :
  overlap_invariant token w0 s →
  overlap_invariant token w0 (run_schedule v env d1 d2 schedule s).
Proof.
  revert s. induction schedule as [|t schedule IH]; intros s Hs; [done|].
  apply IH. by apply overlap_invariant_step.
Qed.

End Overlap.

(** X12. Two cancellation requests for the same token, their stretches
    interleaved in any order and their sends settling in any way: every
    record under another key stays as it was, the record of the token is
    the old one or gone, it is gone as soon as one of the two has been
    answered with a 200, and no more than four mails are handed to
    [sendMail]. *)
Theorem overlapping_cancellations (v : variant) (env : environment) (d1 d2 : delivery)
    (schedule : list turn) (token : string) (w : world) :
  let s := run_schedule v env d1 d2 schedule
             {| first := Received (QString token);
                second := Received (QString token);
                shared := w |} in
  (∀ key, key ≠ token → activeBookings (shared s) !! key = activeBookings w !! key)
  ∧ (activeBookings (shared s) !! token = activeBookings w !! token
     ∨ activeBookings (shared s) !! token = None)
  ∧ (succeeded (first s) || succeeded (second s) = true →
     activeBookings (shared s) !! token = None)
  ∧ (List.length (sent_mails (shared s)) ≤ List.length (sent_mails w) + 4)%nat.
Proof.
  intros s.
  destruct (overlap_invariant_run v env token w d1 d2 schedule
              {| first := Received (QString token);
                 second := Received (QString token);
                 shared := w |}) as (_ & _ & Hframe & Htoken & Hdone & Hmails).
  { unfold overlap_invariant. simpl. repeat split; try done; auto. lia. }
  fold s in Hframe, Htoken, Hdone, Hmails.
  split; [done|]. split; [done|]. split; [done|].
  assert (∀ q, mails_of q ≤ 2)%nat as Hle by (intros []; simpl; lia).
  pose proof (Hle (first s)). pose proof (Hle (second s)). lia.
Qed.

(** X13. Served one after the other, two cancellations of a stored
    booking whose mails render, the sends of the first one fulfilled, end
    in one success page and one 404, with two mails sent and the record
    gone. *)
Theorem cancellations_served_in_turn (v : variant) (env : environment) (d1 d2 : delivery)
    (token : string) (booking : obj) (w : world) (customer admin : mail) :
  activeBookings w !! token = Some booking →
  customerCancelMailOptions v env booking = Ok customer →
  adminCancelMailOptions v env booking = Ok admin →
  Promise_all d1 = Ok () →
  let s := run_schedule v env d1 d2 [First; First; Second; Second]
             {| first := Received (QString token);
                second := Received (QString token);
                shared := w |} in
  ∃ number,
    ToString (get booking "bookingNumber") = Ok number
    ∧ first s = Started (CancelResponded (send 200 (success_page v number)))
    ∧ second s = Started (CancelResponded (send 404 (not_found v)))
    ∧ sent_mails (shared s) = sent_mails w ++ [customer; admin]
    ∧ activeBookings (shared s) = delete token (activeBookings w).
Proof.
  intros Hpresent Hc Ha Hd1 s.
  destruct (customerCancelMailOptions_number v env booking customer Hc) as (number & Hn).
  exists number. split; [done|].
  unfold s, run_schedule. cbn [foldl turn_step first second shared cancel_step].
  rewrite (cancel_ride_begin_present v env w token booking Hpresent), Hc, Ha.
  cbn [first second shared cancel_step].
  rewrite (cancel_ride_resume_delivered v token booking d1 _ number Hd1 Hn).
  cbn [first second shared cancel_step].
  rewrite cancel_ride_begin_absent by (simpl; apply lookup_delete_eq).
  cbn [first second shared cancel_step].
  split; [done|]. split; [done|]. split; [|done].
  rewrite sent_mails_Map_delete, !sent_mails_emit. by rewrite <- app_assoc.
Qed.

(** The sample booking, cancelled twice in turn. *)
Lemma cancellations_served_in_turn_witness :
  let s := run_schedule English Sample.env Sample.delivered Sample.delivered
             [First; First; Second; Second]
             {| first := Received (QString Sample.token);
                second := Received (QString Sample.token);
                shared := Sample.booked |} in
  first s = Started (CancelResponded (send 200 (success_page English "TB200123007")))
  ∧ second s = Started (CancelResponded (send 404 "Booking not found or already cancelled."))
  ∧ List.length (sent_mails (shared s)) = 4.
Proof.
  assert (activeBookings Sample.booked !! Sample.token =
            Some (booking_record
                    (generateBookingNumber (Date_now Sample.now) (random_floor Sample.now))
                    Sample.scheduled_ride (toISOString Sample.now)))
    as Hpresent by (unfold Sample.booked; rewrite book_ride_store; apply lookup_insert_eq).
  destruct (customerCancelMailOptions English Sample.env
              (booking_record
                 (generateBookingNumber (Date_now Sample.now) (random_floor Sample.now))
                 Sample.scheduled_ride (toISOString Sample.now))) as [customer|] eqn:Hc;
    [|by vm_compute in Hc].
  destruct (adminCancelMailOptions English Sample.env
              (booking_record
                 (generateBookingNumber (Date_now Sample.now) (random_floor Sample.now))
                 Sample.scheduled_ride (toISOString Sample.now))) as [admin|] eqn:Ha;
    [|by vm_compute in Ha].
  destruct (cancellations_served_in_turn English Sample.env Sample.delivered Sample.delivered
              Sample.token _ Sample.booked customer admin Hpresent Hc Ha eq_refl)
    as (number & Hn & H1 & H2 & Hmails & _).
  assert (number = "TB200123007") as -> by (vm_compute in Hn; by injection Hn).
  cbv zeta. split; [exact H1|]. split; [exact H2|].
  rewrite Hmails. by rewrite length_app.
Defined.

(** *** The third revision *)

Lemma unprinted_legacy_field (o : obj) :
  (∀ k, k ∈ printed_by_legacy → prints (get o k) = true) →
  ∀ k e, ToString (get o k) = Throw e → k ∈ printed_by_legacy → False.
Proof. intros H k e E Hk. apply H in Hk. unfold prints in Hk. by rewrite E in Hk. Qed.

Lemma legacy_adminMailOptions_prints (user : option string) (body : obj) :
  (∀ k, k ∈ printed_by_legacy → prints (get body k) = true) →
  ∃ m, Legacy.adminMailOptions user body = Ok m
       ∧ from m = env_value user ∧ to m = env_value user.
Proof.
  intros H. unfold Legacy.adminMailOptions.
  print_fields body; first
    [ exfalso;
      match goal with
      | E : ToString (get _ ?k) = Throw _ |- _ =>
          apply (unprinted_legacy_field _ H k _ E); unfold printed_by_legacy; is_listed
      end
    | eexists; repeat split; reflexivity ].
Qed.

Lemma legacy_customerMailOptions_prints (user : option string) (body : obj) :
  (∀ k, k ∈ printed_by_legacy → prints (get body k) = true) →
  ∃ m dateTime,
    Legacy.customerMailOptions user body = Ok m
    ∧ ToString (get body "dateTime") = Ok dateTime
    ∧ from m = env_value user ∧ to m = get body "email"
    ∧ contains (html m) ("<li><strong>Date/Time:</strong> " +:+ dateTime +:+ "</li>").
Proof.
  intros H. unfold Legacy.customerMailOptions.
  print_fields body; first
    [ exfalso;
      match goal with
      | E : ToString (get _ ?k) = Throw _ |- _ =>
          apply (unprinted_legacy_field _ H k _ E); unfold printed_by_legacy; is_listed
      end
    | idtac ].
  eexists _, _. split; [reflexivity|]. split; [reflexivity|]. simpl.
  split; [done|]. split; [done|].
  unfold legacy_customerMailOptions_html.
  change "        <li><strong>Date/Time:</strong> "
    with ("        " +:+ "<li><strong>Date/Time:</strong> ").
  rewrite (append_assoc "        "). find_occurrence.
Qed.

Lemma legacy_adminMailOptions_throws (user : option string) (body : obj) (k : string) :
  k ∈ printed_by_legacy → prints (get body k) = false →
  ∃ e, Legacy.adminMailOptions user body = Throw e.
Proof.
  intros Hk Hp. unfold Legacy.adminMailOptions.
  print_fields body; first [by eexists | idtac].
  unfold printed_by_legacy in Hk. one_of_the_fields Hk Hp.
Qed.

(** X14. The third revision sends one mail after the other, the admin's
    first: when the mails print, a rejected admin mail is answered with
    500 at once and the customer is never mailed; only after the admin mail
    went through is the customer mail handed to [sendMail], and the answer
    is 200 when that one is fulfilled too. *)
Theorem legacy_sends_in_turn (user : option string) (admin_send customer_send : settled)
    (body : obj) :
  (∀ k, k ∈ printed_by_legacy → prints (get body k) = true) →
  let run := Legacy.book_ride user admin_send customer_send body in
  ∃ admin customer,
    to admin = env_value user ∧ to customer = get body "email"
    ∧ match admin_send, customer_send with
      | Rejected e, _ =>
          fst run = Legacy.Responded (Legacy.booking_failure e)
          ∧ legacy_sent_mails (snd run) = [admin]
      | Fulfilled, Rejected e =>
          fst run = Legacy.Responded (Legacy.booking_failure e)
          ∧ legacy_sent_mails (snd run) = [admin; customer]
      | Fulfilled, Fulfilled =>
          fst run = Legacy.Responded Legacy.booking_success
          ∧ legacy_sent_mails (snd run) = [admin; customer]
      end.
Proof.
  intros H run. unfold run, Legacy.book_ride.
  destruct (legacy_adminMailOptions_prints user body H) as (admin & Ha & _ & Hato).
  destruct (legacy_customerMailOptions_prints user body H)
    as (customer & dateTime & Hc & _ & _ & Hcto & _).
  rewrite Ha. step_bind. rewrite Hc. step_bind.
  exists admin, customer. split; [done|]. split; [done|].
  by destruct admin_send, customer_send.
Qed.

(** The sample request with the admin mail rejected: one mail, to the
    admin. *)
Lemma legacy_sends_in_turn_witness :
  let run := Legacy.book_ride (Some "taxi@example.com") (Rejected Sample.timed_out) Fulfilled
               Sample.scheduled_ride in
  ∃ admin,
    legacy_sent_mails (snd run) = [admin] ∧ to admin = VStr "taxi@example.com".
Proof.
  assert (∀ k, k ∈ printed_by_legacy → prints (get Sample.scheduled_ride k) = true) as H.
  { intros k Hk. unfold printed_by_legacy in Hk.
    repeat (apply elem_of_cons in Hk as [->|Hk]; [by vm_compute|]).
    by apply elem_of_nil in Hk. }
  destruct (legacy_sends_in_turn (Some "taxi@example.com") (Rejected Sample.timed_out)
              Fulfilled Sample.scheduled_ride H) as (admin & customer & Hto & _ & _ & Hsent).
  cbv zeta. exists admin. split; [exact Hsent | exact Hto].
Defined.

(** X15. The third revision prints the requested time as it was sent:
    whatever the [type], the date line of the customer mail holds the
    [dateTime] of the body as [ToString] prints it, with no formatting and
    no immediate phrase. *)
Theorem legacy_mail_shows_dateTime_as_sent (user : option string)
    (admin_send customer_send : settled) (body : obj) :
  (∀ k, k ∈ printed_by_legacy → prints (get body k) = true) →
  admin_send = Fulfilled →
  ∃ admin customer dateTime,
    legacy_sent_mails (snd (Legacy.book_ride user admin_send customer_send body))
      = [admin; customer]
    ∧ ToString (get body "dateTime") = Ok dateTime
    ∧ contains (html customer) ("<li><strong>Date/Time:</strong> " +:+ dateTime +:+ "</li>").
Proof.
  intros H ->. unfold Legacy.book_ride.
  destruct (legacy_adminMailOptions_prints user body H) as (admin & Ha & _).
  destruct (legacy_customerMailOptions_prints user body H)
    as (customer & dateTime & Hc & Hd & _ & _ & Hline).
  rewrite Ha. step_bind. rewrite Hc. step_bind.
  exists admin, customer, dateTime. split; [by destruct customer_send|done].
Qed.

(** The scenario of the scheduled ride: the ISO text is in the mail. *)
Lemma legacy_mail_shows_dateTime_as_sent_witness :
  ∃ admin customer,
    legacy_sent_mails (snd (Legacy.book_ride (Some "taxi@example.com") Fulfilled Fulfilled
                              Sample.scheduled_ride)) = [admin; customer]
    ∧ contains (html customer) "<li><strong>Date/Time:</strong> 2025-03-01T10:00:00Z</li>".
Proof.
  assert (∀ k, k ∈ printed_by_legacy → prints (get Sample.scheduled_ride k) = true) as H.
  { intros k Hk. unfold printed_by_legacy in Hk.
    repeat (apply elem_of_cons in Hk as [->|Hk]; [by vm_compute|]).
    by apply elem_of_nil in Hk. }
  destruct (legacy_mail_shows_dateTime_as_sent (Some "taxi@example.com") Fulfilled Fulfilled
              Sample.scheduled_ride H eq_refl) as (admin & customer & dateTime & Hsent & Hd & Hline).
  assert (dateTime = "2025-03-01T10:00:00Z") as -> by (vm_compute in Hd; by injection Hd).
  exists admin, customer. split; [exact Hsent | exact Hline].
Defined.

(** X16. In the third revision the mails are built before the [try]:
    when a printed property does not print, the handler ends before any
    mail is sent and without entering its [catch]; all it leaves is the
    first log line. *)
Theorem legacy_unprintable_escapes (user : option string) (admin_send customer_send : settled)
    (body : obj) (k : string) :
  k ∈ printed_by_legacy → prints (get body k) = false →
  ∃ e, Legacy.book_ride user admin_send customer_send body =
         (Legacy.Escaped e, [Legacy.ConsoleLog "Received booking request:"]).
Proof.
  intros Hk Hp. destruct (legacy_adminMailOptions_throws user body k Hk Hp) as [e He].
  exists e. unfold Legacy.book_ride. by rewrite He.
Qed.

(** A [phone] that is an array holding an object with an own [toString]. *)
Lemma legacy_unprintable_escapes_witness :
  let body := <["phone" := VArr [VObj {["toString" := VBool true]}]]> Sample.scheduled_ride in
  prints (get body "phone") = false
  ∧ legacy_sent_mails (snd (Legacy.book_ride None Fulfilled Fulfilled body)) = [].
Proof.
  cbv zeta.
  assert ("phone" ∈ printed_by_legacy) as Hk by (unfold printed_by_legacy; is_listed).
  assert (prints (get (<["phone" := VArr [VObj {["toString" := VBool true]}]]>
                         Sample.scheduled_ride) "phone") = false) as Hp by (by vm_compute).
  destruct (legacy_unprintable_escapes None Fulfilled Fulfilled _ "phone" Hk Hp) as [e He].
  split; [exact Hp|]. by rewrite He.
Defined.

(** *** Start-up configuration *)

(** X17. The origins the first revision allows are the two local ones
    and [FRONTEND_URL] exactly when that is set and not empty: an unset or
    empty variable adds no entry, so the list never holds [undefined].  The
    third revision allows one origin, [FRONTEND_URL] when it is set and not
    empty and the local one otherwise. *)
Theorem allowed_origins (FRONTEND_URL : option string) :
  (∀ o, o ∈ corsOptions_origin FRONTEND_URL
        ↔ o = VStr "http://localhost:5173" ∨ o = VStr "http://127.0.0.1:5173"
          ∨ ∃ s, FRONTEND_URL = Some s ∧ s ≠ EmptyString ∧ o = VStr s)
  ∧ (List.length (corsOptions_origin FRONTEND_URL) =
       match FRONTEND_URL with
       | Some s => if decide (s = EmptyString) then 2 else 3
       | None => 2
       end)
  ∧ legacy_corsOptions_origin FRONTEND_URL =
      match FRONTEND_URL with
      | Some s => if decide (s = EmptyString) then VStr "http://localhost:5173" else VStr s
      | None => VStr "http://localhost:5173"
      end.
Proof.
  unfold corsOptions_origin, legacy_corsOptions_origin.
  destruct FRONTEND_URL as [s|]; simpl.
  - destruct (decide (s = EmptyString)) as [->|Hne].
    + split; [|done]. intros o. split.
      * intros Ho. repeat (apply elem_of_cons in Ho as [->|Ho]; [auto|]).
        by apply elem_of_nil in Ho.
      * intros [->|[->|(s & [= <-] & Hs & _)]]; [is_listed..|done].
    + assert (filter (λ v, Is_true (ToBoolean v))
                [VStr "http://localhost:5173"; VStr "http://127.0.0.1:5173"; VStr s]
              = [VStr "http://localhost:5173"; VStr "http://127.0.0.1:5173"; VStr s]) as ->.
      { rewrite !filter_cons. simpl. rewrite decide_True; [done|].
        by rewrite bool_decide_eq_false_2. }
      rewrite bool_decide_eq_false_2 by done. simpl.
      rewrite (filter_cons_True _ (VStr s)) by (simpl; by rewrite bool_decide_eq_false_2).
      split; [|done]. intros o. split.
      * intros Ho. repeat (apply elem_of_cons in Ho as [->|Ho]; [eauto 6|]).
        by apply elem_of_nil in Ho.
      * intros [->|[->|(s' & [= <-] & _ & ->)]]; is_listed.
  - split; [|done]. intros o. split.
    + intros Ho. repeat (apply elem_of_cons in Ho as [->|Ho]; [auto|]).
      by apply elem_of_nil in Ho.
    + intros [->|[->|(s & [=] & _)]]; is_listed.
Qed.

End Coverage.
